(** * Monte Carlo retirement simulator: the two [run_simulation] engines

    A shallow embedding of [MonteCarloRetirementSimulator.run_simulation] as
    it is written in [app.py] and in [monte_carlo.py], together with the
    NumPy and Python operations both of them call.

    Numbers.  A Python [float] is read as a real number and a Python [int]
    as a [Z].  Rounding and the non-finite values of binary64 are not part
    of that reading, with one exception: a power [x ** n] whose value leaves
    the binary64 range raises [OverflowError], as it does in Python.  The
    statements about runs are therefore the ones rounding cannot break:
    equations that transcribe an expression of the source, orderings, shapes,
    and which exception ends a run.

    Binary64.  Where a property of the specification turns on rounding, the
    part of the engines whose binary64 value IEEE 754 fixes is embedded a
    second time, over the kernel's primitive floats (module [b64]), and the
    property is settled there by evaluation.

    Exceptions.  Python code fails by raising; the embedding returns a
    [result], whose [Raise] carries the class of the exception.  Memory is
    unbounded: an allocation never fails for lack of it.

    Randomness.  [np.random.normal] reads the process-wide generator.  The
    generator is an explicit stream of standard normal variates, threaded
    through the run; a draw with location [loc] and scale [scale] is
    [loc + scale * z], which is how NumPy's legacy generator computes it.

    Around the engines.  The plots ([create_plot], [plot_results]), the
    recommendation of [generate_report], [sensitivity_analysis], the page's
    [runSimulation] and the [/simulate] route are embedded as well.
    Matplotlib is reduced to the two checks the plots can trip on real
    values (a negative pie wedge, series of different lengths), and a figure
    is the data handed to it. *)

From Stdlib Require Import Strings.String.
From Stdlib Require Floats.
From Stdlib Require Import Reals Lra Lia ZArith List Bool.
From Stdlib Require Import Sorting.Sorted Sorting.Permutation.
Import ListNotations.

Open Scope R_scope.

(** ** Exceptions and fallible computations *)

Inductive exn : Set :=
| ZeroDivisionError
| OverflowError
| ValueError
| TypeError
| IndexError.

Inductive result (A : Type) : Type :=
| OK (a : A)
| Raise (e : exn).

Arguments OK {A} a.
Arguments Raise {A} e.

Definition bind {A B : Type} (c : result A) (k : A -> result B) : result B :=
  match c with
  | OK a => k a
  | Raise e => Raise e
  end.

Notation "x <- c ;; k" := (bind c (fun x => k))
  (at level 61, c at next level, right associativity).
Notation "' p <- c ;; k" := (bind c (fun x => let p := x in k))
  (at level 61, p pattern, c at next level, right associativity).

Definition completes {A : Type} (c : result A) : Prop := exists a, c = OK a.
Definition fails {A : Type} (c : result A) : Prop := exists e, c = Raise e.

(** ** Python arithmetic *)

(** The value of a Python arithmetic expression over floats: a float, or a
    complex number (a negative float raised to a fractional power). *)
Inductive pynum : Type :=
| PyFloat (r : R)
| PyComplex.

Module py.

(** The magnitude from which a value has no binary64 neighbour but an
    infinity: [2 ** 1024 - 2 ** 970], half an ulp above the largest float. *)
Definition overflow_threshold : R := IZR (2 ^ 1024 - 2 ^ 970).

(** [x ** n] for a float [x] and an int [n]: the exponent is converted to a
    float first (an [OverflowError] when it has none), zero to a negative
    power is a [ZeroDivisionError], and a power outside the binary64 range
    is an [OverflowError]. *)
Definition pow_int (x : R) (n : Z) : result R :=
  if Rle_dec overflow_threshold (Rabs (IZR n)) then Raise OverflowError
  else if (n <? 0)%Z && (if Req_dec_T x 0 then true else false)
  then Raise ZeroDivisionError
  else if Rle_dec overflow_threshold (Rabs (powerRZ x n))
  then Raise OverflowError
  else OK (powerRZ x n).

(** [x ** y] for floats [x <> 0] and [y]: whether the power, whose magnitude
    is [|x| ** y], leaves the binary64 range. *)
Definition pow_overflows (x y : R) : bool :=
  if Rle_dec overflow_threshold (Rpower (Rabs x) y) then true else false.

(** [x ** y] for floats, at a positive exponent [y] that is not an integer
    (here [1/12]): a positive base gives [exp (y * ln x)], zero gives zero,
    and a negative base gives a complex number. *)
Definition pow_frac (x y : R) : pynum :=
  if Rlt_dec 0 x then PyFloat (Rpower x y)
  else if Req_dec_T x 0 then PyFloat 0
  else PyComplex.

(** [a - b] where [b] is a float. *)
Definition sub (a : pynum) (b : R) : pynum :=
  match a with
  | PyFloat r => PyFloat (r - b)
  | PyComplex => PyComplex
  end.

(** [range(a, b)] *)
Definition range (a b : Z) : list Z :=
  map (fun k => (a + Z.of_nat k)%Z) (seq 0 (Z.to_nat (b - a))).

End py.

(** ** NumPy *)

Module np.

Definition ndarray := list R.
Definition matrix := list ndarray.

(** The generator behind [np.random]: the standard normal variates it hands
    out, and how many of them have been consumed. *)
Record RandomState : Type := mkRandomState {
  variates : nat -> R;
  position : nat
}.

(** [np.zeros((rows, cols))] *)
Definition zeros (rows cols : Z) : result matrix :=
  if ((rows <? 0) || (cols <? 0))%Z then Raise ValueError
  else OK (repeat (repeat 0 (Z.to_nat cols)) (Z.to_nat rows)).

(** [m[i]] and [m[i] = row], for an index in range. *)
Definition get_row (m : matrix) (i : Z) : ndarray := nth (Z.to_nat i) m [].

Fixpoint set_nth {A : Type} (l : list A) (i : nat) (x : A) : list A :=
  match l, i with
  | [], _ => []
  | _ :: t, O => x :: t
  | h :: t, S j => h :: set_nth t j x
  end.

Definition set_row (m : matrix) (i : Z) (row : ndarray) : matrix :=
  set_nth m (Z.to_nat i) row.

(** [m[0] = v]: a scalar broadcast over the row. *)
Definition fill_row (m : matrix) (i : Z) (v : R) : matrix :=
  set_row m i (map (fun _ => v) (get_row m i)).

(** [m[-1]] *)
Definition last_row (m : matrix) : ndarray := last m [].

(** Elementwise [a * b] of two arrays of one length, [1 + a] and [a + c]. *)
Definition mul (a b : ndarray) : ndarray :=
  map (fun ab => fst ab * snd ab) (combine a b).
Definition radd (c : R) (a : ndarray) : ndarray := map (fun x => c + x) a.
Definition add (a : ndarray) (c : R) : ndarray := map (fun x => x + c) a.
Definition rsub (c : R) (a : ndarray) : ndarray := map (fun x => c - x) a.

(** [np.random.normal(loc, scale, size)]: the arguments are converted to
    floats first (a complex [loc] is a [TypeError]), then a negative scale is
    rejected, then [size] variates are taken from the generator. *)
Definition normal (loc : pynum) (scale : R) (size : Z) (g : RandomState)
  : result (ndarray * RandomState) :=
  match loc with
  | PyComplex => Raise TypeError
  | PyFloat mu =>
      if Rlt_dec scale 0 then Raise ValueError
      else if (size <? 0)%Z then Raise ValueError
      else
        let n := Z.to_nat size in
        OK (map (fun j => mu + scale * variates g (position g + j)) (seq 0 n),
            mkRandomState (variates g) (position g + n))
  end.

(** [np.sum(a >= x)] and the boolean-mask selection [a[a < x]]. *)
Definition count_ge (a : ndarray) (x : R) : nat :=
  length (filter (fun b => if Rle_dec x b then true else false) a).

Definition select_lt (a : ndarray) (x : R) : ndarray :=
  filter (fun b => if Rlt_dec b x then true else false) a.

Definition sum (a : ndarray) : R := fold_right Rplus 0 a.

(** [np.mean(a)]; callers only reach it with a non-empty array. *)
Definition mean (a : ndarray) : R := sum a / INR (length a).

(** [np.std(a)]: the population standard deviation. *)
Definition std (a : ndarray) : R :=
  let mu := mean a in
  sqrt (mean (map (fun x => (x - mu) * (x - mu)) a)).

(** [np.min(a)] and [np.max(a)]: a [ValueError] on an empty array. *)
Definition min (a : ndarray) : result R :=
  match a with
  | [] => Raise ValueError
  | x :: t => OK (fold_left Rmin t x)
  end.

Definition max (a : ndarray) : result R :=
  match a with
  | [] => Raise ValueError
  | x :: t => OK (fold_left Rmax t x)
  end.

(** Sorting, as [np.percentile] orders its sample. *)
Fixpoint insert (x : R) (l : ndarray) : ndarray :=
  match l with
  | [] => [x]
  | y :: t => if Rle_dec x y then x :: l else y :: insert x t
  end.

Fixpoint sort (l : ndarray) : ndarray :=
  match l with
  | [] => []
  | x :: t => insert x (sort t)
  end.

(** [np.percentile(a, q)] for an integer [q], default method: the sample is
    ordered, the virtual index is [(n - 1) * q / 100], and the result is the
    linear interpolation between the order statistics on both sides of it.
    [q] outside [0, 100] is a [ValueError]; an empty sample has no order
    statistic to index. *)
Definition percentile (a : ndarray) (q : Z) : result R :=
  if ((q <? 0) || (100 <? q))%Z then Raise ValueError
  else
    match a with
    | [] => Raise IndexError
    | _ :: _ =>
        let s := sort a in
        let v := ((Z.of_nat (length a) - 1) * q)%Z in
        let lo := Z.to_nat (v / 100) in
        let hi := Nat.min (lo + 1) (length a - 1) in
        let gamma := IZR (v mod 100) / 100 in
        OK (nth lo s 0 + (nth hi s 0 - nth lo s 0) * gamma)
    end.

End np.

(** ** The parameters of a run *)

Record params : Type := mkParams {
  current_savings : R;
  monthly_contribution : R;
  years : Z;
  annual_return : R;
  annual_volatility : R;
  inflation_rate : R;
  goal_amount : R;
  n_simulations : Z
}.

Record percentile_map : Type := mkPercentiles {
  p5th : R;
  p25th : R;
  p50th : R;
  p75th : R;
  p95th : R
}.

(** The month loop: [for month in range(1, months + 1): body]. *)
Definition loop_state : Type := (np.matrix * np.RandomState)%type.

Fixpoint for_each (body : Z -> loop_state -> result loop_state)
    (months : list Z) (st : loop_state) : result loop_state :=
  match months with
  | [] => OK st
  | month :: rest => st' <- body month st ;; for_each body rest st'
  end.

(** ** Statistics both files compute with the same text *)

(** [success_count = np.sum(final_values >= future_goal)];
    [success_probability = (success_count / n_simulations) * 100]. *)
Definition success_count (final_values : np.ndarray) (future_goal : R) : nat :=
  np.count_ge final_values future_goal.

Definition success_probability_of (final_values : np.ndarray)
    (future_goal : R) (n_simulations : Z) : R :=
  INR (success_count final_values future_goal) / IZR n_simulations * 100.

(** The [percentiles] dictionary. *)
Definition percentiles_of (final_values : np.ndarray) : result percentile_map :=
  v5 <- np.percentile final_values 5 ;;
  v25 <- np.percentile final_values 25 ;;
  v50 <- np.percentile final_values 50 ;;
  v75 <- np.percentile final_values 75 ;;
  v95 <- np.percentile final_values 95 ;;
  OK (mkPercentiles v5 v25 v50 v75 v95).

(** The setup both files share: percentages to decimals, the inflated goal,
    the monthly drift and noise. *)
Definition future_goal_of (p : params) : result R :=
  let inflation_rate := inflation_rate p / 100 in
  pw <- py.pow_int (1 + inflation_rate) (years p) ;;
  OK (goal_amount p * pw).

Definition months_of (p : params) : Z := (years p * 12)%Z.

Definition monthly_return_of (p : params) : pynum :=
  let annual_return := annual_return p / 100 in
  py.sub (py.pow_frac (1 + annual_return) (1 / 12)) 1.

Definition monthly_volatility_of (p : params) : R :=
  let annual_volatility := annual_volatility p / 100 in
  annual_volatility / sqrt 12.

(** ** monte_carlo.py *)

Module monte_carlo.

Record summary : Type := mkSummary {
  success_probability : R;
  future_goal : R;
  median_final_value : R;
  mean_final_value : R;
  std_final_value : R;
  percentiles : percentile_map;
  avg_shortfall : R;
  min_value : R;
  max_value : R;
  shortfall_probability : R
}.

Definition default_params : params :=
  mkParams 50000 1000 30 7 15 (5 / 2) 1500000 10000.

(** The body of the month loop: the contribution is added unless
    [month % 12 == 0]. *)
Definition month_body (monthly_return : pynum)
    (monthly_volatility monthly_contribution : R) (n_simulations : Z)
    (month : Z) (st : loop_state) : result loop_state :=
  let (results, g) := st in
  '(random_returns, g') <-
     np.normal monthly_return monthly_volatility n_simulations g ;;
  let results :=
    np.set_row results month
      (np.mul (np.get_row results (month - 1)) (np.radd 1 random_returns)) in
  let results :=
    if negb (month mod 12 =? 0)%Z
    then np.set_row results month
           (np.add (np.get_row results month) monthly_contribution)
    else results in
  OK (results, g').

(** Everything up to and including the month loop. *)
Definition simulate (p : params) (g : np.RandomState) : result loop_state :=
  let months := months_of p in
  let monthly_return := monthly_return_of p in
  let monthly_volatility := monthly_volatility_of p in
  results <- np.zeros (months + 1) (n_simulations p) ;;
  let results := np.fill_row results 0 (current_savings p) in
  for_each
    (month_body monthly_return monthly_volatility (monthly_contribution p)
       (n_simulations p))
    (py.range 1 (months + 1)) (results, g).

(** The statistics of the final row. *)
Definition statistics (final_values : np.ndarray) (future_goal : R)
    (n_simulations : Z) : result summary :=
  let success_probability :=
    success_probability_of final_values future_goal n_simulations in
  percentiles <- percentiles_of final_values ;;
  let shortfall_amount :=
    np.rsub future_goal (np.select_lt final_values future_goal) in
  let avg_shortfall :=
    if (0 <? length shortfall_amount)%nat then np.mean shortfall_amount
    else 0 in
  min_value <- np.min final_values ;;
  max_value <- np.max final_values ;;
  OK (mkSummary success_probability future_goal (p50th percentiles)
        (np.mean final_values) (np.std final_values) percentiles
        avg_shortfall min_value max_value (100 - success_probability)).

(** [run_simulation]: the summary it returns and the matrix it leaves in
    [self.results]. *)
Definition run_simulation (p : params) (g : np.RandomState)
  : result (summary * np.matrix) :=
  future_goal <- future_goal_of p ;;
  '(results, _) <- simulate p g ;;
  let final_values := np.last_row results in
  summary <- statistics final_values future_goal (n_simulations p) ;;
  OK (summary, results).

End monte_carlo.

(** ** app.py *)

Module app.

Record summary : Type := mkSummary {
  success_probability : R;
  future_goal : R;
  median_final_value : R;
  mean_final_value : R;
  std_final_value : R;
  min_value : R;
  max_value : R;
  percentiles : percentile_map;
  n_simulations_run : Z
}.

Definition default_params : params :=
  mkParams 50000 1000 30 7 15 (5 / 2) 1500000 5000.

(** The body of the month loop: the contribution is added every month. *)
Definition month_body (monthly_return : pynum)
    (monthly_volatility monthly_contribution : R) (n_simulations : Z)
    (month : Z) (st : loop_state) : result loop_state :=
  let (results, g) := st in
  '(random_returns, g') <-
     np.normal monthly_return monthly_volatility n_simulations g ;;
  let results :=
    np.set_row results month
      (np.mul (np.get_row results (month - 1)) (np.radd 1 random_returns)) in
  let results :=
    np.set_row results month
      (np.add (np.get_row results month) monthly_contribution) in
  OK (results, g').

Definition simulate (p : params) (g : np.RandomState) : result loop_state :=
  let months := months_of p in
  let monthly_return := monthly_return_of p in
  let monthly_volatility := monthly_volatility_of p in
  results <- np.zeros (months + 1) (n_simulations p) ;;
  let results := np.fill_row results 0 (current_savings p) in
  for_each
    (month_body monthly_return monthly_volatility (monthly_contribution p)
       (n_simulations p))
    (py.range 1 (months + 1)) (results, g).

Definition statistics (final_values : np.ndarray) (future_goal : R)
    (n_simulations : Z) : result summary :=
  let success_probability :=
    success_probability_of final_values future_goal n_simulations in
  percentiles <- percentiles_of final_values ;;
  min_value <- np.min final_values ;;
  max_value <- np.max final_values ;;
  OK (mkSummary success_probability future_goal (p50th percentiles)
        (np.mean final_values) (np.std final_values) min_value max_value
        percentiles n_simulations).

Definition run_simulation (p : params) (g : np.RandomState)
  : result (summary * np.matrix) :=
  future_goal <- future_goal_of p ;;
  '(results, _) <- simulate p g ;;
  let final_values := np.last_row results in
  summary <- statistics final_values future_goal (n_simulations p) ;;
  OK (summary, results).

End app.

(** ** The month loop in closed form

    Both loops are one loop up to the test that guards the contribution.
    [contributes month] says whether the contribution is added in [month];
    [balance m j] is the balance of column [j] at the end of month [m]. *)

Section Trajectory.

Variable contributes : Z -> bool.
Variables (mu sd c s0 : R).
Variable n : nat.
Variable g : np.RandomState.

(** The return drawn for column [j] in month [m + 1]. *)
Definition draw (m j : nat) : R :=
  mu + sd * np.variates g (np.position g + (m * n + j)).

Fixpoint balance (m j : nat) : R :=
  match m with
  | O => s0
  | S k =>
      balance k j * (1 + draw k j)
      + (if contributes (Z.of_nat m) then c else 0)
  end.

Definition trajectory_row (m : nat) : np.ndarray := map (balance m) (seq 0 n).

Definition trajectory (months : nat) : np.matrix :=
  map trajectory_row (seq 0 (S months)).

Definition advance (k : nat) : np.RandomState :=
  np.mkRandomState (np.variates g) (np.position g + k * n).

Definition guarded_body (month : Z) (st : loop_state) : result loop_state :=
  let (results, g) := st in
  '(random_returns, g') <- np.normal (PyFloat mu) sd (Z.of_nat n) g ;;
  let results :=
    np.set_row results month
      (np.mul (np.get_row results (month - 1)) (np.radd 1 random_returns)) in
  let results :=
    if contributes month
    then np.set_row results month (np.add (np.get_row results month) c)
    else results in
  OK (results, g').

End Trajectory.

Definition always (_ : Z) : bool := true.
Definition skip_year_end (month : Z) : bool := negb (month mod 12 =? 0)%Z.

(** The inflation factor [(1 + inflation_rate / 100) ** years] is within
    the binary64 range, and so is the exponent. *)
Definition goal_in_range (p : params) : Prop :=
  Rabs (IZR (years p)) < py.overflow_threshold
  /\ Rabs (powerRZ (1 + inflation_rate p / 100) (years p))
     < py.overflow_threshold.

(** What makes a run complete. *)
Definition runnable (p : params) : Prop :=
  (0 <= years p)%Z /\ (1 <= n_simulations p)%Z /\
  ((1 <= years p)%Z -> -100 <= annual_return p /\ 0 <= annual_volatility p)
  /\ goal_in_range p.

(** ** Definitions the statements use *)


(** The monthly return as a real number, when it is one. *)
Definition monthly_drift (p : params) : R :=
  match monthly_return_of p with
  | PyFloat r => r
  | PyComplex => 0
  end.

(** The matrix a run is about to fill, in closed form. *)
Definition closed_form (contributes : Z -> bool) (p : params)
    (g : np.RandomState) : np.matrix :=
  trajectory contributes (monthly_drift p) (monthly_volatility_of p)
    (monthly_contribution p) (current_savings p)
    (Z.to_nat (n_simulations p)) g (Z.to_nat (months_of p)).

(** What makes the allocation and the month loop complete. *)
Definition loop_ready (p : params) : Prop :=
  (0 <= years p)%Z /\ (0 <= n_simulations p)%Z /\
  ((1 <= years p)%Z -> -100 <= annual_return p /\ 0 <= annual_volatility p).

(** The interpolated order statistic of an ordered sample. *)
Definition interpolate (s : np.ndarray) (q : Z) : R :=
  let v := ((Z.of_nat (length s) - 1) * q)%Z in
  let lo := Z.to_nat (v / 100) in
  let hi := Nat.min (lo + 1) (length s - 1) in
  nth lo s 0 + (nth hi s 0 - nth lo s 0) * (IZR (v mod 100) / 100).

(** [avg_shortfall] as [monte_carlo.py] computes it. *)
Definition avg_shortfall_of (final_values : np.ndarray) (future_goal : R) : R :=
  let shortfall_amount :=
    np.rsub future_goal (np.select_lt final_values future_goal) in
  if (0 <? length shortfall_amount)%nat then np.mean shortfall_amount else 0.

(** Every value of the sample is [c]. *)
Definition all_equal (a : np.ndarray) (c : R) : Prop :=
  forall x, In x a -> x = c.

(** [m[row][col]] *)
Definition entry (m : np.matrix) (row col : nat) : R :=
  nth col (nth row m []) 0.

(** The return sample applied to column [j] in month [month]; both files
    draw it from the same generator with the same arguments. *)
Definition sample (p : params) (g : np.RandomState) (month j : nat) : R :=
  draw (monthly_drift p) (monthly_volatility_of p)
    (Z.to_nat (n_simulations p)) g (month - 1) j.

(** The closed-form balances of a run. *)
Definition balance_of (contributes : Z -> bool) (p : params)
    (g : np.RandomState) : nat -> nat -> R :=
  balance contributes (monthly_drift p) (monthly_volatility_of p)
    (monthly_contribution p) (current_savings p)
    (Z.to_nat (n_simulations p)) g.

(** A generator whose variates are all zero. *)
Definition zero_generator : np.RandomState := np.mkRandomState (fun _ => 0) 0.

(** One year, one path, the other fields at their defaults. *)
Definition one_year_params : params :=
  mkParams 50000 1000 1 7 15 (5 / 2) 1500000 1.



(** No volatility. *)
Definition zero_volatility_params : params :=
  mkParams 50000 1000 1 7 0 (5 / 2) 1500000 3.

(** The shape of a trajectory matrix. *)
Definition well_shaped (p : params) (m : np.matrix) : Prop :=
  length m = Z.to_nat (years p * 12 + 1)
  /\ (forall row, In row m -> length row = Z.to_nat (n_simulations p))
  /\ (forall x, In x (nth 0 m []) -> x = current_savings p).



(** No growth, no noise: one unit a month for one year from nothing. *)
Definition flat_params : params := mkParams 0 1 1 0 0 0 0 1.

Ltac case_reals :=
  repeat match goal with
    | |- context [Rle_dec ?a ?b] =>
        destruct (Rle_dec a b); try (exfalso; lra)
    | |- context [Rlt_dec ?a ?b] =>
        destruct (Rlt_dec a b); try (exfalso; lra)
    end.

Ltac eval_index :=
  repeat match goal with
    | |- context [Z.to_nat ?z] =>
        let v := eval vm_compute in (Z.to_nat z) in
        change (Z.to_nat z) with v
    | |- context [(?a mod ?b)%Z] =>
        let v := eval vm_compute in (a mod b)%Z in
        change (a mod b)%Z with v
    end.


(** The fields the two summaries share. *)
Definition same_statistics (sa : app.summary) (sm : monte_carlo.summary)
  : Prop :=
  app.success_probability sa = monte_carlo.success_probability sm
  /\ app.future_goal sa = monte_carlo.future_goal sm
  /\ app.median_final_value sa = monte_carlo.median_final_value sm
  /\ app.mean_final_value sa = monte_carlo.mean_final_value sm
  /\ app.std_final_value sa = monte_carlo.std_final_value sm
  /\ app.min_value sa = monte_carlo.min_value sm
  /\ app.max_value sa = monte_carlo.max_value sm
  /\ app.percentiles sa = monte_carlo.percentiles sm.

(** [p] with another [goal_amount]. *)
Definition with_goal (p : params) (goal : R) : params :=
  mkParams (current_savings p) (monthly_contribution p) (years p)
    (annual_return p) (annual_volatility p) (inflation_rate p) goal
    (n_simulations p).

(** ** The engines over binary64

    The same two functions with Python's floats as they are: IEEE 754
    binary64, the kernel's primitive floats.  Sums, products, quotients and
    square roots are correctly rounded there and evaluate.  Powers are
    libm's, whose last bit the standard leaves open; only the two that
    CPython answers itself are determined, and a run that needs another one
    has no value here ([None], which also stands for a run that raises).
    [np.percentile] is left out. *)

Module b64.

Import FloatClass PrimFloat.
#[local] Open Scope float_scope.

Definition ndarray := list float.
Definition matrix := list ndarray.

Record RandomState : Type := mkRandomState {
  variates : nat -> float;
  position : nat
}.

(** An [int] as a float; exact below [2 ** 53]. *)
Definition of_Z (n : Z) : float :=
  if (n <? 0)%Z then - of_uint63 (Uint63.of_Z (- n))
  else of_uint63 (Uint63.of_Z n).

(** [x ** y]: [x ** 0] is 1 and [1 ** y] is 1, whatever the other operand;
    every other power is libm's. *)
Definition pow (x y : float) : option float :=
  if y =? 0 then Some 1
  else if x =? 1 then Some 1
  else None.

(** The sign bit, which [np.random.normal] tests on its scale. *)
Definition signbit (x : float) : bool :=
  match classify x with
  | NNormal | NSubn | NZero | NInf => true
  | _ => false
  end.

Record params : Type := mkParams {
  current_savings : float;
  monthly_contribution : float;
  years : Z;
  annual_return : float;
  annual_volatility : float;
  inflation_rate : float;
  goal_amount : float;
  n_simulations : Z
}.

(** [np.zeros((rows, cols))], [m[i]], [m[i] = row], [m[0] = v], [m[-1]] *)
Definition zeros (rows cols : Z) : option matrix :=
  if ((rows <? 0) || (cols <? 0))%Z then None
  else Some (repeat (repeat 0 (Z.to_nat cols)) (Z.to_nat rows)).

Definition get_row (m : matrix) (i : Z) : ndarray := nth (Z.to_nat i) m [].

Definition set_row (m : matrix) (i : Z) (row : ndarray) : matrix :=
  np.set_nth m (Z.to_nat i) row.

Definition fill_row (m : matrix) (i : Z) (v : float) : matrix :=
  set_row m i (map (fun _ => v) (get_row m i)).

Definition last_row (m : matrix) : ndarray := last m [].

(** Elementwise [a * b], [1 + a], [a + c] and [c - a]. *)
Definition mul (a b : ndarray) : ndarray :=
  map (fun ab => fst ab * snd ab) (combine a b).
Definition radd (c : float) (a : ndarray) : ndarray := map (fun x => c + x) a.
Definition add (a : ndarray) (c : float) : ndarray := map (fun x => x + c) a.
Definition rsub (c : float) (a : ndarray) : ndarray := map (fun x => c - x) a.

(** [np.random.normal(loc, scale, size)]: a scale with the sign bit set is
    refused; a draw is [loc + scale * z]. *)
Definition normal (loc scale : float) (size : Z) (g : RandomState)
  : option (ndarray * RandomState) :=
  if signbit scale then None
  else if (size <? 0)%Z then None
  else
    let n := Z.to_nat size in
    Some (map (fun j => loc + scale * variates g (position g + j)) (seq 0 n),
          mkRandomState (variates g) (position g + n)).

(** [np.sum(a >= x)] and [a[a < x]] *)
Definition count_ge (a : ndarray) (x : float) : nat :=
  length (filter (fun b => x <=? b) a).

Definition select_lt (a : ndarray) (x : float) : ndarray :=
  filter (fun b => b <? x) a.

(** [np.sum(a)]: NumPy adds fewer than eight elements in order. *)
Definition sum (a : ndarray) : float := fold_left PrimFloat.add a 0.

(** [np.mean(a)]: the sum divided by the count. *)
Definition mean (a : ndarray) : float :=
  sum a / of_Z (Z.of_nat (length a)).

(** [np.std(a)]: the deviations from the mean are squared, averaged, and
    the square root is taken. *)
Definition std (a : ndarray) : float :=
  let mu := mean a in
  sqrt (mean (map (fun x => (x - mu) * (x - mu)) a)).

(** [np.min(a)] and [np.max(a)] *)
Definition min (a : ndarray) : option float :=
  match a with
  | [] => None
  | x :: t => Some (fold_left (fun u v => if v <? u then v else u) t x)
  end.

Definition max (a : ndarray) : option float :=
  match a with
  | [] => None
  | x :: t => Some (fold_left (fun u v => if u <? v then v else u) t x)
  end.

(** The setup both files share. *)
Definition future_goal_of (p : params) : option float :=
  let inflation_rate := inflation_rate p / 100 in
  match pow (1 + inflation_rate) (of_Z (years p)) with
  | Some pw => Some (goal_amount p * pw)
  | None => None
  end.

Definition monthly_return_of (p : params) : option float :=
  let annual_return := annual_return p / 100 in
  match pow (1 + annual_return) (1 / 12) with
  | Some root => Some (root - 1)
  | None => None
  end.

Definition monthly_volatility_of (p : params) : float :=
  let annual_volatility := annual_volatility p / 100 in
  annual_volatility / sqrt 12.

Definition loop_state : Type := (matrix * RandomState)%type.

Fixpoint for_each (body : Z -> loop_state -> option loop_state)
    (months : list Z) (st : loop_state) : option loop_state :=
  match months with
  | [] => Some st
  | month :: rest =>
      match body month st with
      | Some st' => for_each body rest st'
      | None => None
      end
  end.

(** The allocation and the month loop, once the goal has been inflated and
    the monthly return computed; [final_values = results[-1]]. *)
Definition final_values_with
    (month_body : float -> float -> float -> Z -> Z -> loop_state ->
                  option loop_state)
    (p : params) (g : RandomState) : option ndarray :=
  match future_goal_of p, monthly_return_of p with
  | Some _, Some monthly_return =>
      let months := (years p * 12)%Z in
      match zeros (months + 1) (n_simulations p) with
      | None => None
      | Some results =>
          let results := fill_row results 0 (current_savings p) in
          match for_each
                  (month_body monthly_return (monthly_volatility_of p)
                     (monthly_contribution p) (n_simulations p))
                  (py.range 1 (months + 1)) (results, g)
          with
          | Some (results, _) => Some (last_row results)
          | None => None
          end
      end
  | _, _ => None
  end.

Module app.

(** The body of the month loop of [app.py]. *)
Definition month_body (monthly_return : float)
    (monthly_volatility monthly_contribution : float) (n_simulations : Z)
    (month : Z) (st : loop_state) : option loop_state :=
  let (results, g) := st in
  match normal monthly_return monthly_volatility n_simulations g with
  | None => None
  | Some (random_returns, g') =>
      let results :=
        set_row results month
          (mul (get_row results (month - 1)) (radd 1 random_returns)) in
      let results :=
        set_row results month
          (add (get_row results month) monthly_contribution) in
      Some (results, g')
  end.

Definition final_values : params -> RandomState -> option ndarray :=
  final_values_with month_body.

End app.

Module monte_carlo.

(** The body of the month loop of [monte_carlo.py]. *)
Definition month_body (monthly_return : float)
    (monthly_volatility monthly_contribution : float) (n_simulations : Z)
    (month : Z) (st : loop_state) : option loop_state :=
  let (results, g) := st in
  match normal monthly_return monthly_volatility n_simulations g with
  | None => None
  | Some (random_returns, g') =>
      let results :=
        set_row results month
          (mul (get_row results (month - 1)) (radd 1 random_returns)) in
      let results :=
        if negb (month mod 12 =? 0)%Z
        then set_row results month
               (add (get_row results month) monthly_contribution)
        else results in
      Some (results, g')
  end.

Definition final_values : params -> RandomState -> option ndarray :=
  final_values_with month_body.

(** [avg_shortfall] *)
Definition avg_shortfall (final_values : ndarray) (future_goal : float)
  : float :=
  let shortfall_amount :=
    rsub future_goal (select_lt final_values future_goal) in
  if (0 <? length shortfall_amount)%nat then mean shortfall_amount else 0.

End monte_carlo.

(** [(success_count / n_simulations) * 100] *)
Definition success_probability (final_values : ndarray) (future_goal : float)
    (n_simulations : Z) : float :=
  of_Z (Z.of_nat (count_ge final_values future_goal)) / of_Z n_simulations
  * 100.

Definition less (x y : float) : bool := x <? y.

(** The float of the literal [0.1], of [0.2], and zero. *)
Definition tenth : float := 0x1.999999999999ap-4.
Definition fifth : float := 0x1.999999999999ap-3.
Definition zero : float := 0.

(** A tenth on the account, nothing added, no return, no noise, no
    inflation, one year, three paths; the goal is a fifth. *)
Definition still_params : params :=
  mkParams tenth 0 1 0 0 0 fifth 3.

(** A generator that alternates between [1.5] and [-0.5]. *)
Definition alternating : RandomState :=
  mkRandomState (fun j => if Nat.even j then 0x1.8p0 else - 0x1p-1) 0.

End b64.

(** ** The presentation layer: plots, report, web page and route *)

(** ** More of NumPy, and the checks Matplotlib makes *)

(** [m.shape[0]] and [m.shape[1]] of a matrix with at least one row. *)
Definition np_shape0 (m : np.matrix) : Z := Z.of_nat (length m).
Definition np_shape1 (m : np.matrix) : Z := Z.of_nat (length (hd [] m)).

(** [m[:, i]]: a negative index counts from the end, an index out of range
    is an [IndexError]. *)
Definition np_column (m : np.matrix) (i : Z) : result np.ndarray :=
  let n := np_shape1 m in
  if ((0 <=? i) && (i <? n))%Z then
    OK (map (fun row => nth (Z.to_nat i) row 0) m)
  else if ((- n <=? i) && (i <? 0))%Z then
    OK (map (fun row => nth (Z.to_nat (n + i)) row 0) m)
  else Raise IndexError.

(** [m[:, :k]] *)
Definition np_first_columns (k : nat) (m : np.matrix) : np.matrix :=
  map (firstn k) m.

(** [a[::k]] for [k >= 1]: the entries at positions 0, k, 2k, ... *)
Fixpoint step_from (k skip : nat) (a : np.ndarray) : np.ndarray :=
  match a with
  | [] => []
  | x :: t =>
      match skip with
      | O => x :: step_from k (k - 1) t
      | S s => step_from k s t
      end
  end.

Definition np_step (k : nat) (a : np.ndarray) : np.ndarray := step_from k 0 a.

(** [a / c] *)
Definition np_div (a : np.ndarray) (c : R) : np.ndarray :=
  map (fun x => x / c) a.

(** [np.median(a)]: the middle order statistic, or the mean of the two
    middle ones; callers only reach it with a non-empty array. *)
Definition np_median (a : np.ndarray) : R :=
  let s := np.sort a in
  let n := length a in
  if Nat.even n then (nth (n / 2 - 1) s 0 + nth (n / 2) s 0) / 2
  else nth (n / 2) s 0.

(** [np.median(m, axis=1)] *)
Definition np_median_rows (m : np.matrix) : np.ndarray := map np_median m.

Module plt.

(** [hist(x)] refuses a sample that holds a non-finite value.  The values
    of this embedding are real numbers, which are all finite: here it
    accepts every sample. *)
Definition hist (x : np.ndarray) : result np.ndarray := OK x.

(** [pie(x)] refuses a negative wedge. *)
Definition pie (x : np.ndarray) : result np.ndarray :=
  if existsb (fun v => if Rlt_dec v 0 then true else false) x
  then Raise ValueError
  else OK x.

(** [plot(x, y)] refuses series of different lengths. *)
Definition plot (x : list Z) (y : np.ndarray)
  : result (list Z * np.ndarray) :=
  if (length x =? length y)%nat then OK (x, y) else Raise ValueError.

End plt.

(** [[f(i) for i in l]], stopping at the first exception. *)
Fixpoint for_list {A B : Type} (f : A -> result B) (l : list A)
  : result (list B) :=
  match l with
  | [] => OK []
  | x :: t => y <- f x ;; ys <- for_list f t ;; OK (y :: ys)
  end.

(** One sampled path of the "simulation paths" panel: the column at every
    twelfth month, in thousands, against [range(years + 1)]. *)
Definition sample_path (results : np.matrix) (years : Z) (i : Z)
  : result (list Z * np.ndarray) :=
  column <- np_column results i ;;
  plt.plot (py.range 0 (years + 1)) (np_div (np_step 12 column) 1000).

(** The values of the percentile bar chart. *)
Definition bar_values (pm : percentile_map) : np.ndarray :=
  [p5th pm; p25th pm; p50th pm; p75th pm; p95th pm].

(** The three ratings of a success probability, as the report words them
    and as the page colours them. *)
Inductive rating : Set := high | medium | low.

(** ** app.py: the plot, the page and the route *)

Module app_web.

(** What [create_plot] hands to Matplotlib; the function returns its PNG
    encoding. *)
Record figure : Type := mkFigure {
  histogram : np.ndarray;
  goal_line : R;
  wedges : np.ndarray;
  bars : np.ndarray;
  sample_paths : list (list Z * np.ndarray);
  paths_goal_line : R
}.

(** The body of the [try] block of [create_plot]; [self_results] is
    [self.results], [None] before any run. *)
Definition draw_plot (self_results : option np.matrix) (summary : app.summary)
  : result figure :=
  results <- match self_results with
             | Some m => OK m
             | None => Raise TypeError
             end ;;
  let final_values := np.last_row results in
  let years := (np_shape0 results / 12)%Z in
  histogram <- plt.hist final_values ;;
  let success_prob := app.success_probability summary in
  let failure_prob := 100 - success_prob in
  wedges <- plt.pie [success_prob; failure_prob] ;;
  let values := bar_values (app.percentiles summary) in
  paths <- for_list (sample_path results years)
             (py.range 0 (Z.min 10 (np_shape1 results))) ;;
  OK (mkFigure histogram (app.future_goal summary) wedges values paths
        (app.future_goal summary / 1000)).

(** [create_plot]: any exception is caught and turned into [None]. *)
Definition create_plot (self_results : option np.matrix)
    (summary : app.summary) : option figure :=
  match draw_plot self_results summary with
  | OK fig => Some fig
  | Raise _ => None
  end.

(** The class the page gives the probability. *)
Definition probability_class (prob : R) : rating :=
  if Rle_dec 80 prob then high
  else if Rle_dec 60 prob then medium
  else low.

(** The fields of the page as [parseFloat] and [parseInt] read them;
    [None] is NaN. *)
Record form : Type := mkForm {
  currentSavings : option R;
  monthlyContribution : option R;
  yearsField : option Z;
  annualReturn : option R;
  annualVolatility : option R;
  inflationRate : option R;
  goalAmount : option R;
  nSimulations : option Z
}.

(** [v || d] on numbers: NaN and zero are falsy. *)
Definition or_default (v : option R) (d : R) : R :=
  match v with
  | Some r => if Req_dec_T r 0 then d else r
  | None => d
  end.

Definition or_default_int (v : option Z) (d : Z) : Z :=
  match v with
  | Some z => if (z =? 0)%Z then d else z
  | None => d
  end.

(** The [params] object of [runSimulation]. *)
Definition page_params (f : form) : params :=
  mkParams
    (or_default (currentSavings f) 50000)
    (or_default (monthlyContribution f) 1000)
    (or_default_int (yearsField f) 30)
    (or_default (annualReturn f) 7)
    (or_default (annualVolatility f) 15)
    (or_default (inflationRate f) (5 / 2))
    (or_default (goalAmount f) 1500000)
    (or_default_int (nSimulations f) 5000).

(** A JSON value, as [request.get_json()] returns it. *)
#[local] Unset Elimination Schemes.
Inductive json : Type :=
| JNull
| JBool (b : bool)
| JNum (r : R)
| JStr (s : string)
| JArr (l : list json)
| JObj (o : list (string * json)).
#[local] Set Elimination Schemes.

(** [JSON.stringify(params)] *)
Definition page_request (f : form) : json :=
  let p := page_params f in
  JObj [("current_savings"%string, JNum (current_savings p));
        ("monthly_contribution"%string, JNum (monthly_contribution p));
        ("years"%string, JNum (IZR (years p)));
        ("annual_return"%string, JNum (annual_return p));
        ("annual_volatility"%string, JNum (annual_volatility p));
        ("inflation_rate"%string, JNum (inflation_rate p));
        ("goal_amount"%string, JNum (goal_amount p));
        ("n_simulations"%string, JNum (IZR (n_simulations p)))].

(** What the route can raise: a missing [get] method, or what the
    conversions and the simulation raise. *)
Inductive route_exn : Set :=
| AttributeError
| Python (e : exn).

Inductive outcome (A : Type) : Type :=
| Done (a : A)
| Failed (e : route_exn).

Arguments Done {A} a.
Arguments Failed {A} e.

Definition and_then {A B : Type} (c : outcome A) (k : A -> outcome B)
  : outcome B :=
  match c with
  | Done a => k a
  | Failed e => Failed e
  end.

(** Truncation toward zero, as [int] applies it to a float. *)
Definition trunc (r : R) : Z :=
  if Rle_dec 0 r then Int_part r else (- Int_part (- r))%Z.

Fixpoint lookup (key : string) (o : list (string * json)) : option json :=
  match o with
  | [] => None
  | (k, v) :: rest => if String.eqb key k then Some v else lookup key rest
  end.

Section Conversions.

(** What [float] and [int] make of a string; [None] is a [ValueError]. *)
Variable float_of_string : string -> option R.
Variable int_of_string : string -> option Z.

(** [float(x)] *)
Definition to_float (x : json) : outcome R :=
  match x with
  | JNum r => Done r
  | JBool b => Done (if b then 1 else 0)
  | JStr s =>
      match float_of_string s with
      | Some r => Done r
      | None => Failed (Python ValueError)
      end
  | JNull | JArr _ | JObj _ => Failed (Python TypeError)
  end.

(** [int(x)] *)
Definition to_int (x : json) : outcome Z :=
  match x with
  | JNum r => Done (trunc r)
  | JBool b => Done (if b then 1 else 0)%Z
  | JStr s =>
      match int_of_string s with
      | Some z => Done z
      | None => Failed (Python ValueError)
      end
  | JNull | JArr _ | JObj _ => Failed (Python TypeError)
  end.

(** [data.get(key, default)] *)
Definition get (data : json) (key : string) (default : json) : outcome json :=
  match data with
  | JObj o =>
      match lookup key o with
      | Some v => Done v
      | None => Done default
      end
  | _ => Failed AttributeError
  end.

(** The [params] dictionary of the route. *)
Definition parse_params (data : json) : outcome params :=
  and_then (and_then (get data "current_savings" (JNum 50000)) to_float)
    (fun current_savings =>
  and_then (and_then (get data "monthly_contribution" (JNum 1000)) to_float)
    (fun monthly_contribution =>
  and_then (and_then (get data "years" (JNum 30)) to_int)
    (fun years =>
  and_then (and_then (get data "annual_return" (JNum 7)) to_float)
    (fun annual_return =>
  and_then (and_then (get data "annual_volatility" (JNum 15)) to_float)
    (fun annual_volatility =>
  and_then (and_then (get data "inflation_rate" (JNum (5 / 2))) to_float)
    (fun inflation_rate =>
  and_then (and_then (get data "goal_amount" (JNum 1500000)) to_float)
    (fun goal_amount =>
  and_then (and_then (get data "n_simulations" (JNum 5000)) to_int)
    (fun n_simulations =>
  Done (mkParams current_savings monthly_contribution years annual_return
          annual_volatility inflation_rate goal_amount n_simulations))))))))).

(** The response of [/simulate]: the JSON body and the status. *)
Inductive response : Type :=
| Success (summary : app.summary) (plot : option figure)
| Failure (e : route_exn).

Definition status (r : response) : Z :=
  match r with
  | Success _ _ => 200%Z
  | Failure _ => 500%Z
  end.

(** [simulate]: everything happens inside one [try]. *)
Definition simulate (data : json) (g : np.RandomState) : response :=
  match parse_params data with
  | Failed e => Failure e
  | Done p =>
      match app.run_simulation p g with
      | Raise e => Failure (Python e)
      | OK (summary, results) =>
          Success summary (create_plot (Some results) summary)
      end
  end.

End Conversions.

End app_web.

(** ** monte_carlo.py: the plot, the report and the sensitivity analysis *)

Module mc_tools.

(** What [plot_results] hands to Matplotlib. *)
Record figure : Type := mkFigure {
  histogram : np.ndarray;
  goal_line : R;
  median_line : R;
  wedges : np.ndarray;
  bars : np.ndarray;
  bars_goal_line : R;
  sample_paths : list (list Z * np.ndarray);
  median_path : list Z * np.ndarray;
  paths_goal_line : R
}.

(** [plot_results]; nothing is caught here. *)
Definition plot_results (self_results : option np.matrix)
    (summary : monte_carlo.summary) : result figure :=
  results <- match self_results with
             | Some m => OK m
             | None => Raise TypeError
             end ;;
  let final_values := np.last_row results in
  histogram <- plt.hist final_values ;;
  let success_prob := monte_carlo.success_probability summary in
  let failure_prob := 100 - success_prob in
  wedges <- plt.pie [success_prob; failure_prob] ;;
  let values := bar_values (monte_carlo.percentiles summary) in
  let years := (np_shape0 results / 12)%Z in
  paths <- for_list (sample_path results years)
             (py.range 0 (Z.min 50 (np_shape1 results))) ;;
  let median_path :=
    np_step 12 (np_median_rows (np_first_columns 50 results)) in
  median <- plt.plot (py.range 0 (years + 1)) (np_div median_path 1000) ;;
  OK (mkFigure histogram (monte_carlo.future_goal summary)
        (monte_carlo.median_final_value summary) wedges values
        (monte_carlo.future_goal summary) paths median
        (monte_carlo.future_goal summary / 1000)).

(** The branch of [generate_report] that words the recommendation:
    on track, moderate chance, low probability. *)
Definition recommendation (summary : monte_carlo.summary) : rating :=
  if Rle_dec 80 (monte_carlo.success_probability summary) then high
  else if Rle_dec 60 (monte_carlo.success_probability summary) then medium
  else low.

(** [run_simulation] together with the generator it leaves behind. *)
Definition run_simulation_state (p : params) (g : np.RandomState)
  : result (monte_carlo.summary * np.matrix * np.RandomState) :=
  future_goal <- future_goal_of p ;;
  '(results, g') <- monte_carlo.simulate p g ;;
  let final_values := np.last_row results in
  summary <- monte_carlo.statistics final_values future_goal
               (n_simulations p) ;;
  OK (summary, results, g').

(** A Python number. *)
Inductive pyval : Type :=
| PInt (z : Z)
| PFloat (r : R).

Definition as_float (v : pyval) : R :=
  match v with
  | PInt z => IZR z
  | PFloat r => r
  end.

(** A dictionary of inputs, the most recent assignment first. *)
Definition inputs := list (string * pyval).

Fixpoint lookup (key : string) (d : inputs) : option pyval :=
  match d with
  | [] => None
  | (k, v) :: rest => if String.eqb key k then Some v else lookup key rest
  end.

(** [d[key] = v] on a copy of [d]. *)
Definition assign (key : string) (v : pyval) (d : inputs) : inputs :=
  (key, v) :: d.

Definition parameter_names : list string :=
  ["current_savings"; "monthly_contribution"; "years"; "annual_return";
   "annual_volatility"; "inflation_rate"; "goal_amount";
   "n_simulations"]%string.

Definition is_parameter (key : string) : bool :=
  existsb (String.eqb key) parameter_names.

Definition keyword (d : inputs) (key : string) (default : pyval) : pyval :=
  match lookup key d with
  | Some v => v
  | None => default
  end.

(** [self.run_simulation] called with the dictionary [d] as its keyword
    arguments: a keyword that is no parameter is a
    [TypeError]; a parameter that is not passed takes its default; a float
    where [np.zeros] wants an integer is a [TypeError] once the goal has been
    inflated, which is where a power can raise first. *)
Definition call_run_simulation (d : inputs) (g : np.RandomState)
  : result (monte_carlo.summary * np.matrix * np.RandomState) :=
  if forallb (fun kv => is_parameter (fst kv)) d then
    let current_savings := as_float (keyword d "current_savings" (PInt 50000)) in
    let monthly_contribution :=
      as_float (keyword d "monthly_contribution" (PInt 1000)) in
    let annual_return := as_float (keyword d "annual_return" (PFloat 7)) in
    let annual_volatility :=
      as_float (keyword d "annual_volatility" (PFloat 15)) in
    let inflation_rate :=
      as_float (keyword d "inflation_rate" (PFloat (5 / 2))) in
    let goal_amount := as_float (keyword d "goal_amount" (PInt 1500000)) in
    match keyword d "years" (PInt 30),
          keyword d "n_simulations" (PInt 10000) with
    | PInt years, PInt n_simulations =>
        run_simulation_state
          (mkParams current_savings monthly_contribution years annual_return
             annual_volatility inflation_rate goal_amount n_simulations) g
    | PInt years, PFloat _ =>
        _ <- future_goal_of
               (mkParams current_savings monthly_contribution years
                  annual_return annual_volatility inflation_rate goal_amount
                  0) ;;
        Raise TypeError
    | PFloat years, _ =>
        if Req_dec_T (1 + inflation_rate / 100) 0 then
          if Rlt_dec years 0 then Raise ZeroDivisionError
          else Raise TypeError
        else if py.pow_overflows (1 + inflation_rate / 100) years
        then Raise OverflowError
        else Raise TypeError
    end
  else Raise TypeError.

(** A row of the table the analysis builds. *)
Record row : Type := mkRow {
  tested_value : pyval;
  row_success_probability : R;
  row_median_value : R
}.

(** What the analysis can raise: a missing column, or what a run raises. *)
Inductive analysis_exn : Set :=
| KeyError
| FromRun (e : exn).

(** The loop of [sensitivity_analysis]. *)
Fixpoint sensitivity_loop (base_inputs : inputs) (variable_to_test : string)
    (test_values : list pyval) (st : list row * np.RandomState)
  : result (list row * np.RandomState) :=
  match test_values with
  | [] => OK st
  | value :: rest =>
      let (results, g) := st in
      let test_inputs := assign variable_to_test value base_inputs in
      '(summary, _, g') <- call_run_simulation test_inputs g ;;
      sensitivity_loop base_inputs variable_to_test rest
        (results ++ [mkRow value (monte_carlo.success_probability summary)
                       (monte_carlo.median_final_value summary)], g')
  end.

(** [sensitivity_analysis]: the table it plots.  An empty table has no
    column to plot. *)
Definition sensitivity_analysis (base_inputs : inputs)
    (variable_to_test : string) (test_values : list pyval)
    (g : np.RandomState)
  : analysis_exn + (list row * np.RandomState) :=
  match sensitivity_loop base_inputs variable_to_test test_values ([], g) with
  | Raise e => inl (FromRun e)
  | OK ([], _) => inl KeyError
  | OK (rows, g') => inr (rows, g')
  end.

End mc_tools.

(** The yearly points of column [i]: the balances at months 0, 12, 24, ...
    in thousands. *)
Definition yearly_points (contributes : Z -> bool) (p : params)
    (g : np.RandomState) (i : Z) : list Z * np.ndarray :=
  (py.range 0 (years p + 1),
   map (fun k => entry (closed_form contributes p g) (12 * k) (Z.to_nat i)
                 / 1000)
     (seq 0 (S (Z.to_nat (years p))))).

(** The keys the route reads. *)
Definition request_keys : list string :=
  ["current_savings"; "monthly_contribution"; "years"; "annual_return";
   "annual_volatility"; "inflation_rate"; "goal_amount";
   "n_simulations"]%string.

(** The chain of runs behind a table: each run starts on the generator the
    previous one left. *)
Inductive table_of (base_inputs : mc_tools.inputs) (variable : string)
  : list mc_tools.pyval -> np.RandomState -> list mc_tools.row ->
    np.RandomState -> Prop :=
| table_nil (g : np.RandomState) : table_of base_inputs variable [] g [] g
| table_cons (value : mc_tools.pyval) (rest : list mc_tools.pyval)
    (g g1 g2 : np.RandomState) (s : monte_carlo.summary) (m : np.matrix)
    (rows : list mc_tools.row) :
    mc_tools.call_run_simulation
      (mc_tools.assign variable value base_inputs) g = OK (s, m, g1) ->
    table_of base_inputs variable rest g1 rows g2 ->
    table_of base_inputs variable (value :: rest) g
      (mc_tools.mkRow value (monte_carlo.success_probability s)
         (monte_carlo.median_final_value s) :: rows) g2.

(** Two simulations of one year. *)
Definition small_inputs : mc_tools.inputs :=
  [("years"%string, mc_tools.PInt 1);
   ("n_simulations"%string, mc_tools.PInt 2)].

(** ** Lists *)

Lemma set_nth_length {A : Type} (l : list A) (i : nat) (x : A) :
  length (np.set_nth l i x) = length l.
Proof.
  revert i; induction l as [|h t IH]; intros [|i]; simpl; auto.
Qed.

Lemma set_nth_app {A : Type} (l1 l2 : list A) (x y : A) :
  np.set_nth (l1 ++ x :: l2) (length l1) y = l1 ++ y :: l2.
Proof.
  induction l1 as [|h t IH]; simpl; [reflexivity | now rewrite IH].
Qed.

Lemma nth_app_here {A : Type} (l1 l2 : list A) (x d : A) :
  nth (length l1) (l1 ++ x :: l2) d = x.
Proof.
  induction l1 as [|h t IH]; simpl; auto.
Qed.

Lemma mul_map {A : Type} (f h : A -> R) (l : list A) :
  np.mul (map f l) (map h l) = map (fun x => f x * h x) l.
Proof.
  unfold np.mul. induction l as [|x t IH]; simpl; [reflexivity|].
  now rewrite IH.
Qed.

Lemma map_const_repeat {A B : Type} (v : R) (x : A) (f : B -> R) (k a : nat)
    (h : nat -> B) :
  (forall b, f b = v) ->
  map (fun _ => v) (repeat x k) = map f (map h (seq a k)).
Proof.
  intros Hf. revert a. induction k as [|k IH]; intros a; simpl;
    [reflexivity | now rewrite Hf, (IH (S a))].
Qed.

Lemma range_seq (months : Z) :
  py.range 1 (months + 1) = map Z.of_nat (seq 1 (Z.to_nat months)).
Proof.
  unfold py.range. replace (months + 1 - 1)%Z with months by lia.
  rewrite <- seq_shift, map_map. apply map_ext. intros k. lia.
Qed.

Lemma advance_0 (n : nat) (g : np.RandomState) : advance n g 0 = g.
Proof.
  unfold advance. destruct g as [v p]; simpl. f_equal. lia.
Qed.

(** ** The loop computes the closed form *)

Section TrajectoryFacts.

Variable contributes : Z -> bool.
Variables (mu sd c s0 : R).
Variable n : nat.
Variable g : np.RandomState.
Hypothesis sd_nonneg : 0 <= sd.

Let row := trajectory_row contributes mu sd c s0 n g.
Let body := guarded_body contributes mu sd c n.

Lemma trajectory_row_length (m : nat) : length (row m) = n.
Proof. unfold row, trajectory_row. now rewrite length_map, length_seq. Qed.

Lemma trajectory_length (months : nat) :
  length (trajectory contributes mu sd c s0 n g months) = S months.
Proof. unfold trajectory. now rewrite length_map, length_seq. Qed.

Lemma trajectory_snoc (k : nat) :
  trajectory contributes mu sd c s0 n g (S k)
  = trajectory contributes mu sd c s0 n g k ++ [row (S k)].
Proof.
  unfold trajectory. rewrite (seq_S (S k)), map_app. reflexivity.
Qed.

Lemma trajectory_nth (months m : nat) :
  (m <= months)%nat ->
  nth m (trajectory contributes mu sd c s0 n g months) [] = row m.
Proof.
  intros Hm. unfold trajectory.
  rewrite (nth_indep _ [] (row 0)) by (rewrite length_map, length_seq; lia).
  change (row 0) with (trajectory_row contributes mu sd c s0 n g 0).
  rewrite map_nth with (d := 0%nat), seq_nth by lia. reflexivity.
Qed.

Lemma normal_advance (k : nat) :
  np.normal (PyFloat mu) sd (Z.of_nat n) (advance n g k)
  = OK (map (fun j => draw mu sd n g k j) (seq 0 n), advance n g (S k)).
Proof.
  unfold np.normal. destruct (Rlt_dec sd 0) as [H|_]; [lra|].
  destruct (Z.ltb_spec (Z.of_nat n) 0) as [E|_]; [lia|]. rewrite Nat2Z.id.
  f_equal. f_equal.
  - apply map_ext. intros j. unfold draw, advance; simpl.
    now rewrite Nat.add_assoc.
  - unfold advance; simpl. f_equal. lia.
Qed.

Lemma body_step (k : nat) (rest : np.matrix) (z : np.ndarray) :
  body (Z.of_nat (S k))
    (trajectory contributes mu sd c s0 n g k ++ z :: rest, advance n g k)
  = OK (trajectory contributes mu sd c s0 n g (S k) ++ rest,
        advance n g (S k)).
Proof.
  unfold body, guarded_body. rewrite normal_advance. cbn [bind].
  set (T := trajectory contributes mu sd c s0 n g k).
  assert (HT : length T = S k) by apply trajectory_length.
  assert (Hprev : np.get_row (T ++ z :: rest) (Z.of_nat (S k) - 1) = row k).
  { unfold np.get_row.
    replace (Z.to_nat (Z.of_nat (S k) - 1)) with k by lia.
    rewrite app_nth1 by lia. apply trajectory_nth. lia. }
  assert (Hset : forall (x y : np.ndarray),
             np.set_nth (T ++ x :: rest) (S k) y = T ++ y :: rest).
  { intros x y. rewrite <- HT. apply set_nth_app. }
  assert (Hget : forall x : np.ndarray, nth (S k) (T ++ x :: rest) [] = x).
  { intros x. rewrite <- HT. apply nth_app_here. }
  rewrite Hprev. unfold np.set_row, np.get_row. rewrite Nat2Z.id, Hset.
  unfold np.radd. rewrite map_map. unfold row at 1, trajectory_row.
  rewrite mul_map. rewrite trajectory_snoc. fold T. rewrite <- app_assoc.
  cbn [app]. unfold row, trajectory_row.
  destruct (contributes (Z.of_nat (S k))) eqn:E.
  - rewrite Hget, Hset.
    unfold np.add. rewrite mul_map, map_map.
    rewrite (map_ext _ (balance contributes mu sd c s0 n g (S k)));
      [reflexivity|].
    intros j. cbn [balance]. rewrite E. reflexivity.
  - rewrite mul_map.
    rewrite (map_ext _ (balance contributes mu sd c s0 n g (S k)));
      [reflexivity|].
    intros j. cbn [balance]. rewrite E. lra.
Qed.

Lemma loop_from (len k : nat) (rest : np.matrix) :
  for_each body (map Z.of_nat (seq (S k) len))
    (trajectory contributes mu sd c s0 n g k ++ repeat (repeat 0 n) len
       ++ rest, advance n g k)
  = OK (trajectory contributes mu sd c s0 n g (k + len) ++ rest,
        advance n g (k + len)).
Proof.
  revert k. induction len as [|len IH]; intros k.
  - simpl. now rewrite Nat.add_0_r.
  - cbn [seq map for_each repeat app]. rewrite body_step. cbn [bind].
    rewrite IH. replace (k + S len)%nat with (S k + len)%nat by lia.
    reflexivity.
Qed.

Lemma zeros_filled (months : nat) :
  np.fill_row (repeat (repeat 0 n) (S months)) 0 s0
  = trajectory contributes mu sd c s0 n g 0 ++ repeat (repeat 0 n) months.
Proof.
  unfold np.fill_row, np.set_row, np.get_row. simpl.
  unfold trajectory_row. f_equal.
  rewrite <- (map_id (seq 0 n)) at 1.
  apply (map_const_repeat s0 0 (balance contributes mu sd c s0 n g 0)).
  reflexivity.
Qed.

Lemma loop_all (months : nat) :
  for_each body (py.range 1 (Z.of_nat months + 1))
    (np.fill_row (repeat (repeat 0 n) (S months)) 0 s0, g)
  = OK (trajectory contributes mu sd c s0 n g months, advance n g months).
Proof.
  rewrite range_seq, Nat2Z.id, zeros_filled.
  pose proof (loop_from months 0 []) as H.
  rewrite !app_nil_r, advance_0 in H. exact H.
Qed.

End TrajectoryFacts.

(** ** The drift and the noise of a run *)

Lemma monthly_return_float (p : params) :
  -100 <= annual_return p ->
  monthly_return_of p = PyFloat (monthly_drift p).
Proof.
  intros H. unfold monthly_drift, monthly_return_of, py.pow_frac, py.sub.
  destruct (Rlt_dec 0 (1 + annual_return p / 100)); [reflexivity|].
  destruct (Req_dec_T (1 + annual_return p / 100) 0); [reflexivity|].
  exfalso. lra.
Qed.

Lemma monthly_return_complex (p : params) :
  annual_return p < -100 -> monthly_return_of p = PyComplex.
Proof.
  intros H. unfold monthly_return_of, py.pow_frac, py.sub.
  destruct (Rlt_dec 0 (1 + annual_return p / 100)); [exfalso; lra|].
  destruct (Req_dec_T (1 + annual_return p / 100) 0); [exfalso; lra|].
  reflexivity.
Qed.

Lemma monthly_volatility_sign (p : params) :
  0 <= annual_volatility p <-> 0 <= monthly_volatility_of p.
Proof.
  unfold monthly_volatility_of.
  assert (Hs : 0 < sqrt 12) by (apply sqrt_lt_R0; lra).
  assert (Hi : 0 < / sqrt 12) by (apply Rinv_0_lt_compat; exact Hs).
  unfold Rdiv. split; intros H.
  - apply Rmult_le_pos; [lra | lra].
  - destruct (Rle_dec 0 (annual_volatility p)) as [|Hn]; [assumption|].
    exfalso. assert (Hneg : annual_volatility p * / 100 < 0) by lra.
    pose proof (Rmult_lt_compat_r _ _ _ Hi Hneg) as Hm. lra.
Qed.

(** ** The two loop bodies are the guarded body *)

Lemma mc_month_body (mu sd c : R) (n : nat) :
  monte_carlo.month_body (PyFloat mu) sd c (Z.of_nat n)
  = guarded_body skip_year_end mu sd c n.
Proof. reflexivity. Qed.

Lemma app_month_body (mu sd c : R) (n : nat) :
  app.month_body (PyFloat mu) sd c (Z.of_nat n)
  = guarded_body always mu sd c n.
Proof. reflexivity. Qed.

Lemma zeros_ok (p : params) :
  (0 <= years p)%Z -> (0 <= n_simulations p)%Z ->
  np.zeros (months_of p + 1) (n_simulations p)
  = OK (repeat (repeat 0 (Z.to_nat (n_simulations p)))
          (S (Z.to_nat (months_of p)))).
Proof.
  intros Hy Hn. unfold np.zeros, months_of.
  destruct (Z.ltb_spec (years p * 12 + 1) 0); [lia|].
  destruct (Z.ltb_spec (n_simulations p) 0); [lia|]. cbn [orb].
  do 2 f_equal. lia.
Qed.

Lemma loop_closed_form (contributes : Z -> bool)
    (body : pynum -> R -> R -> Z -> Z -> loop_state -> result loop_state)
    (p : params) (g : np.RandomState) :
  (forall mu sd c n, body (PyFloat mu) sd c (Z.of_nat n)
                     = guarded_body contributes mu sd c n) ->
  loop_ready p ->
  for_each
    (body (monthly_return_of p) (monthly_volatility_of p)
       (monthly_contribution p) (n_simulations p))
    (py.range 1 (months_of p + 1))
    (np.fill_row
       (repeat (repeat 0 (Z.to_nat (n_simulations p)))
          (S (Z.to_nat (months_of p)))) 0 (current_savings p), g)
  = OK (closed_form contributes p g,
        advance (Z.to_nat (n_simulations p)) g (Z.to_nat (months_of p))).
Proof.
  intros Hbody (Hy & Hn & Hv). unfold closed_form.
  destruct (Z.eq_dec (years p) 0) as [H0|H0].
  - unfold months_of. rewrite H0.
    change (py.range 1 (0 * 12 + 1)) with (@nil Z).
    change (Z.to_nat (0 * 12)) with 0%nat. cbn [for_each].
    rewrite (zeros_filled contributes (monthly_drift p)
               (monthly_volatility_of p) (monthly_contribution p)
               (current_savings p) (Z.to_nat (n_simulations p)) g).
    rewrite app_nil_r, advance_0. reflexivity.
  - destruct Hv as [Hr Hv]; [lia|].
    rewrite (monthly_return_float p Hr).
    rewrite <- (Z2Nat.id (n_simulations p)) at 1 by lia.
    rewrite Hbody.
    rewrite <- (Z2Nat.id (months_of p)) at 1 by (unfold months_of; lia).
    apply loop_all. now apply monthly_volatility_sign.
Qed.

Lemma mc_simulate_closed_form (p : params) (g : np.RandomState) :
  loop_ready p ->
  monte_carlo.simulate p g
  = OK (closed_form skip_year_end p g,
        advance (Z.to_nat (n_simulations p)) g (Z.to_nat (months_of p))).
Proof.
  intros H. unfold monte_carlo.simulate.
  destruct H as (Hy & Hn & Hv). rewrite (zeros_ok p Hy Hn). cbn [bind].
  apply (loop_closed_form skip_year_end monte_carlo.month_body).
  - exact mc_month_body.
  - repeat split; tauto.
Qed.

Lemma app_simulate_closed_form (p : params) (g : np.RandomState) :
  loop_ready p ->
  app.simulate p g
  = OK (closed_form always p g,
        advance (Z.to_nat (n_simulations p)) g (Z.to_nat (months_of p))).
Proof.
  intros H. unfold app.simulate.
  destruct H as (Hy & Hn & Hv). rewrite (zeros_ok p Hy Hn). cbn [bind].
  apply (loop_closed_form always app.month_body).
  - exact app_month_body.
  - repeat split; tauto.
Qed.

(** ** When the loop fails *)

Lemma normal_fails (loc : pynum) (scale : R) (size : Z) (g : np.RandomState) :
  loc = PyComplex \/ scale < 0 -> fails (np.normal loc scale size g).
Proof.
  intros [H|H]; unfold np.normal.
  - rewrite H. now exists TypeError.
  - destruct loc; [|now exists TypeError].
    destruct (Rlt_dec scale 0); [now exists ValueError | contradiction].
Qed.

Lemma mc_body_fails loc sd c n month (st : loop_state) :
  fails (np.normal loc sd n (snd st)) ->
  fails (monte_carlo.month_body loc sd c n month st).
Proof.
  intros [e He]. destruct st as [m g]. simpl in He.
  unfold monte_carlo.month_body. rewrite He. now exists e.
Qed.

Lemma app_body_fails loc sd c n month (st : loop_state) :
  fails (np.normal loc sd n (snd st)) ->
  fails (app.month_body loc sd c n month st).
Proof.
  intros [e He]. destruct st as [m g]. simpl in He.
  unfold app.month_body. rewrite He. now exists e.
Qed.

Lemma loop_fails
    (body : pynum -> R -> R -> Z -> Z -> loop_state -> result loop_state)
    (p : params) (st : loop_state) :
  (forall loc sd c n month st,
      fails (np.normal loc sd n (snd st)) ->
      fails (body loc sd c n month st)) ->
  (1 <= years p)%Z ->
  annual_return p < -100 \/ annual_volatility p < 0 ->
  fails (for_each
           (body (monthly_return_of p) (monthly_volatility_of p)
              (monthly_contribution p) (n_simulations p))
           (py.range 1 (months_of p + 1)) st).
Proof.
  intros Hbody Hy Hbad. rewrite range_seq.
  destruct (Z.to_nat (months_of p)) as [|k] eqn:Ek;
    [unfold months_of in Ek; lia|].
  cbn [seq map for_each].
  destruct (Hbody (monthly_return_of p) (monthly_volatility_of p)
              (monthly_contribution p) (n_simulations p) (Z.of_nat 1) st)
    as [e He].
  - apply normal_fails. destruct Hbad as [H|H].
    + left. now apply monthly_return_complex.
    + right. destruct (Rlt_dec (monthly_volatility_of p) 0) as [|Hn];
        [assumption|].
      exfalso. apply Rnot_lt_le in Hn.
      apply monthly_volatility_sign in Hn. lra.
  - rewrite He. now exists e.
Qed.

Lemma loop_ready_dec (p : params) : {loop_ready p} + {~ loop_ready p}.
Proof.
  unfold loop_ready.
  destruct (Z_le_dec 0 (years p)); [|right; tauto].
  destruct (Z_le_dec 0 (n_simulations p)); [|right; tauto].
  destruct (Z_le_dec 1 (years p)); [|left; repeat split; tauto].
  destruct (Rle_dec (-100) (annual_return p)); [|right; tauto].
  destruct (Rle_dec 0 (annual_volatility p)); [|right; tauto].
  left. tauto.
Qed.

Lemma zeros_fails (p : params) :
  (years p < 0)%Z \/ (n_simulations p < 0)%Z ->
  fails (np.zeros (months_of p + 1) (n_simulations p)).
Proof.
  intros H. unfold np.zeros, months_of. exists ValueError.
  destruct (Z.ltb_spec (years p * 12 + 1) 0);
    destruct (Z.ltb_spec (n_simulations p) 0); try reflexivity. lia.
Qed.

Lemma not_ready_cases (p : params) :
  ~ loop_ready p ->
  ((years p < 0)%Z \/ (n_simulations p < 0)%Z) \/
  ((1 <= years p)%Z /\ (0 <= n_simulations p)%Z /\
   (annual_return p < -100 \/ annual_volatility p < 0)).
Proof.
  intros H. unfold loop_ready in H.
  destruct (Z_le_dec 0 (years p)); [|left; lia].
  destruct (Z_le_dec 0 (n_simulations p)); [|left; lia].
  right. destruct (Z_le_dec 1 (years p)) as [Hy|Hy]; [|exfalso; apply H; tauto].
  repeat split; try assumption.
  destruct (Rle_dec (-100) (annual_return p)); [|left; lra].
  destruct (Rle_dec 0 (annual_volatility p)); [|right; lra].
  exfalso. apply H. tauto.
Qed.

Lemma mc_simulate_fails (p : params) (g : np.RandomState) :
  ~ loop_ready p -> fails (monte_carlo.simulate p g).
Proof.
  intros H. unfold monte_carlo.simulate.
  destruct (not_ready_cases p H) as [Hz|(Hy & Hn & Hbad)].
  - destruct (zeros_fails p Hz) as [e He]. rewrite He. now exists e.
  - rewrite zeros_ok by lia. cbn [bind].
    apply (loop_fails monte_carlo.month_body); auto using mc_body_fails.
Qed.

Lemma app_simulate_fails (p : params) (g : np.RandomState) :
  ~ loop_ready p -> fails (app.simulate p g).
Proof.
  intros H. unfold app.simulate.
  destruct (not_ready_cases p H) as [Hz|(Hy & Hn & Hbad)].
  - destruct (zeros_fails p Hz) as [e He]. rewrite He. now exists e.
  - rewrite zeros_ok by lia. cbn [bind].
    apply (loop_fails app.month_body); auto using app_body_fails.
Qed.

(** ** The final row *)

Lemma last_map_seq {A : Type} (f : nat -> A) (k : nat) (d : A) :
  last (map f (seq 0 (S k))) d = f k.
Proof.
  rewrite seq_S, map_app. simpl map. apply last_last.
Qed.

Lemma closed_form_last (contributes : Z -> bool) (p : params)
    (g : np.RandomState) :
  np.last_row (closed_form contributes p g)
  = trajectory_row contributes (monthly_drift p) (monthly_volatility_of p)
      (monthly_contribution p) (current_savings p)
      (Z.to_nat (n_simulations p)) g (Z.to_nat (months_of p)).
Proof.
  unfold np.last_row, closed_form, trajectory. apply last_map_seq.
Qed.

Lemma closed_form_last_length (contributes : Z -> bool) (p : params)
    (g : np.RandomState) :
  length (np.last_row (closed_form contributes p g))
  = Z.to_nat (n_simulations p).
Proof.
  rewrite closed_form_last. unfold trajectory_row.
  now rewrite length_map, length_seq.
Qed.

(** ** Sorting *)

Lemma insert_perm (x : R) (l : np.ndarray) :
  Permutation (np.insert x l) (x :: l).
Proof.
  induction l as [|y t IH]; simpl; [apply Permutation_refl|].
  destruct (Rle_dec x y); [apply Permutation_refl|].
  eapply perm_trans; [apply perm_skip, IH | apply perm_swap].
Qed.

Lemma sort_perm (l : np.ndarray) : Permutation (np.sort l) l.
Proof.
  induction l as [|x t IH]; simpl; [apply perm_nil|].
  eapply perm_trans; [apply insert_perm | apply perm_skip, IH].
Qed.

Lemma sort_length (l : np.ndarray) : length (np.sort l) = length l.
Proof. apply Permutation_length, sort_perm. Qed.





(** ** Percentiles *)

Lemma percentile_interpolate (a : np.ndarray) (q : Z) :
  a <> [] -> (0 <= q <= 100)%Z ->
  np.percentile a q = OK (interpolate (np.sort a) q).
Proof.
  intros Ha Hq. unfold np.percentile, interpolate.
  destruct (Z.ltb_spec q 0); [lia|]. destruct (Z.ltb_spec 100 q); [lia|].
  cbn [orb]. destruct a as [|x t]; [contradiction|].
  rewrite sort_length. reflexivity.
Qed.





(** ** Counting and selecting *)

Lemma count_ge_le_length (a : np.ndarray) (x : R) :
  (np.count_ge a x <= length a)%nat.
Proof. unfold np.count_ge. apply filter_length_le. Qed.

Lemma count_ge_all (a : np.ndarray) (x : R) :
  (forall b, In b a -> x <= b) -> np.count_ge a x = length a.
Proof.
  unfold np.count_ge. induction a as [|b t IH]; intros H; simpl;
    [reflexivity|].
  destruct (Rle_dec x b) as [|Hn].
  - simpl. f_equal. apply IH. intros b' Hb'. apply H. now right.
  - exfalso. apply Hn, H. now left.
Qed.

Lemma count_ge_none (a : np.ndarray) (x : R) :
  (forall b, In b a -> b < x) -> np.count_ge a x = 0%nat.
Proof.
  unfold np.count_ge. induction a as [|b t IH]; intros H; simpl;
    [reflexivity|].
  destruct (Rle_dec x b) as [Hle|].
  - exfalso. specialize (H b (or_introl eq_refl)). lra.
  - apply IH. intros b' Hb'. apply H. now right.
Qed.

Lemma select_lt_spec (a : np.ndarray) (x b : R) :
  In b (np.select_lt a x) <-> In b a /\ b < x.
Proof.
  unfold np.select_lt. rewrite filter_In. split; intros [H1 H2]; split; auto.
  - destruct (Rlt_dec b x); [assumption | discriminate].
  - destruct (Rlt_dec b x); [reflexivity | contradiction].
Qed.

(** ** Samples whose values are all equal *)







(** ** What the statistics return *)


Lemma percentiles_of_ok (final_values : np.ndarray) :
  final_values <> [] -> completes (percentiles_of final_values).
Proof.
  intros H. unfold percentiles_of.
  rewrite !percentile_interpolate by (try assumption; lia). cbn [bind].
  eexists. reflexivity.
Qed.

Lemma mc_statistics_inv (final_values : np.ndarray) (fg : R) (n : Z)
    (s : monte_carlo.summary) :
  monte_carlo.statistics final_values fg n = OK s ->
  final_values <> [] /\
  monte_carlo.success_probability s
  = success_probability_of final_values fg n /\
  monte_carlo.future_goal s = fg /\
  percentiles_of final_values = OK (monte_carlo.percentiles s) /\
  monte_carlo.median_final_value s = p50th (monte_carlo.percentiles s) /\
  monte_carlo.mean_final_value s = np.mean final_values /\
  monte_carlo.std_final_value s = np.std final_values /\
  np.min final_values = OK (monte_carlo.min_value s) /\
  np.max final_values = OK (monte_carlo.max_value s) /\
  monte_carlo.avg_shortfall s = avg_shortfall_of final_values fg /\
  monte_carlo.shortfall_probability s
  = 100 - monte_carlo.success_probability s.
Proof.
  unfold monte_carlo.statistics.
  destruct (percentiles_of final_values) as [pm|]; [|discriminate].
  destruct (np.min final_values) as [mn|] eqn:Emin; [|discriminate].
  destruct (np.max final_values) as [mx|]; [|discriminate].
  cbn [bind]. intros H. injection H as <-. cbn.
  repeat split. intros ->. discriminate.
Qed.

Lemma app_statistics_inv (final_values : np.ndarray) (fg : R) (n : Z)
    (s : app.summary) :
  app.statistics final_values fg n = OK s ->
  final_values <> [] /\
  app.success_probability s = success_probability_of final_values fg n /\
  app.future_goal s = fg /\
  percentiles_of final_values = OK (app.percentiles s) /\
  app.median_final_value s = p50th (app.percentiles s) /\
  app.mean_final_value s = np.mean final_values /\
  app.std_final_value s = np.std final_values /\
  np.min final_values = OK (app.min_value s) /\
  np.max final_values = OK (app.max_value s) /\
  app.n_simulations_run s = n.
Proof.
  unfold app.statistics.
  destruct (percentiles_of final_values) as [pm|]; [|discriminate].
  destruct (np.min final_values) as [mn|] eqn:Emin; [|discriminate].
  destruct (np.max final_values) as [mx|]; [|discriminate].
  cbn [bind]. intros H. injection H as <-. cbn.
  repeat split. intros ->. discriminate.
Qed.

Lemma mc_statistics_ok (final_values : np.ndarray) (fg : R) (n : Z) :
  final_values <> [] -> completes (monte_carlo.statistics final_values fg n).
Proof.
  intros H. unfold monte_carlo.statistics.
  destruct (percentiles_of_ok final_values H) as [pm ->]. cbn [bind].
  destruct final_values as [|x t]; [contradiction|]. cbn [np.min np.max bind].
  eexists. reflexivity.
Qed.

Lemma app_statistics_ok (final_values : np.ndarray) (fg : R) (n : Z) :
  final_values <> [] -> completes (app.statistics final_values fg n).
Proof.
  intros H. unfold app.statistics.
  destruct (percentiles_of_ok final_values H) as [pm ->]. cbn [bind].
  destruct final_values as [|x t]; [contradiction|]. cbn [np.min np.max bind].
  eexists. reflexivity.
Qed.

Lemma mc_statistics_empty (fg : R) (n : Z) :
  fails (monte_carlo.statistics [] fg n).
Proof. now exists IndexError. Qed.

Lemma app_statistics_empty (fg : R) (n : Z) :
  fails (app.statistics [] fg n).
Proof. now exists IndexError. Qed.

(** ** What a run returns *)

Lemma pow_int_inv (x : R) (n : Z) (v : R) :
  py.pow_int x n = OK v ->
  v = powerRZ x n
  /\ Rabs (IZR n) < py.overflow_threshold
  /\ Rabs (powerRZ x n) < py.overflow_threshold
  /\ ((n < 0)%Z -> x <> 0).
Proof.
  unfold py.pow_int.
  destruct (Rle_dec py.overflow_threshold (Rabs (IZR n))) as [|Hn];
    [discriminate|].
  destruct (Z.ltb_spec n 0) as [Hneg|Hpos]; cbn [andb].
  - destruct (Req_dec_T x 0) as [|Hx]; [discriminate|].
    destruct (Rle_dec py.overflow_threshold (Rabs (powerRZ x n))) as [|Hp];
      [discriminate|].
    intros H. injection H as <-.
    split; [reflexivity|]. split; [lra|]. split; [lra|]. intros _. exact Hx.
  - destruct (Rle_dec py.overflow_threshold (Rabs (powerRZ x n))) as [|Hp];
      [discriminate|].
    intros H. injection H as <-.
    split; [reflexivity|]. split; [lra|]. split; [lra|]. lia.
Qed.

Lemma pow_int_ok (x : R) (n : Z) :
  Rabs (IZR n) < py.overflow_threshold ->
  ((n < 0)%Z -> x <> 0) ->
  Rabs (powerRZ x n) < py.overflow_threshold ->
  py.pow_int x n = OK (powerRZ x n).
Proof.
  intros Hn Hx Hp. unfold py.pow_int.
  destruct (Rle_dec py.overflow_threshold (Rabs (IZR n))); [lra|].
  destruct (Rle_dec py.overflow_threshold (Rabs (powerRZ x n))); [lra|].
  destruct (Z.ltb_spec n 0) as [Hneg|Hpos]; cbn [andb]; [|reflexivity].
  destruct (Req_dec_T x 0) as [E|_]; [|reflexivity].
  now contradiction (Hx Hneg).
Qed.

Lemma future_goal_ok (p : params) :
  (0 <= years p)%Z -> goal_in_range p ->
  future_goal_of p
  = OK (goal_amount p * powerRZ (1 + inflation_rate p / 100) (years p)).
Proof.
  intros H [Hn Hp]. unfold future_goal_of.
  rewrite pow_int_ok by (try assumption; lia). reflexivity.
Qed.

Lemma future_goal_inv (p : params) (fg : R) :
  future_goal_of p = OK fg ->
  fg = goal_amount p * powerRZ (1 + inflation_rate p / 100) (years p).
Proof.
  unfold future_goal_of.
  destruct (py.pow_int _ _) as [v|] eqn:E; [|discriminate].
  apply pow_int_inv in E. destruct E as (-> & _).
  cbn [bind]. intros H. injection H as <-. reflexivity.
Qed.

Lemma future_goal_in_range (p : params) (fg : R) :
  future_goal_of p = OK fg -> goal_in_range p.
Proof.
  unfold future_goal_of.
  destruct (py.pow_int _ _) as [v|] eqn:E; [|discriminate].
  apply pow_int_inv in E. intros _. split; apply E.
Qed.

Lemma runnable_ready (p : params) : runnable p -> loop_ready p.
Proof. unfold runnable, loop_ready. intuition lia. Qed.

Lemma nonempty_of_length (a : np.ndarray) (n : Z) :
  (1 <= n)%Z -> length a = Z.to_nat n -> a <> [].
Proof. intros Hn Hl ->. simpl in Hl. lia. Qed.

Lemma mc_run_inv (p : params) (g : np.RandomState)
    (s : monte_carlo.summary) (m : np.matrix) :
  monte_carlo.run_simulation p g = OK (s, m) ->
  runnable p /\ m = closed_form skip_year_end p g /\
  monte_carlo.statistics (np.last_row m)
    (goal_amount p * powerRZ (1 + inflation_rate p / 100) (years p))
    (n_simulations p) = OK s.
Proof.
  unfold monte_carlo.run_simulation.
  destruct (future_goal_of p) as [fg|] eqn:Efg; [|discriminate]. cbn [bind].
  pose proof (future_goal_in_range p fg Efg) as Hg.
  apply future_goal_inv in Efg. subst fg.
  destruct (loop_ready_dec p) as [Hr|Hr].
  - rewrite (mc_simulate_closed_form p g Hr). cbn [bind].
    destruct (monte_carlo.statistics _ _ _) as [s'|] eqn:Es; [|discriminate].
    cbn [bind]. intros H. injection H as <- <-.
    assert (Hn : (1 <= n_simulations p)%Z).
    { destruct (Z_le_dec 1 (n_simulations p)) as [|Hn]; [assumption|].
      exfalso. apply mc_statistics_inv in Es. destruct Es as [Hne _].
      apply Hne. apply length_zero_iff_nil.
      rewrite closed_form_last_length. lia. }
    split; [unfold runnable; unfold loop_ready in Hr; tauto|].
    split; [reflexivity | exact Es].
  - destruct (mc_simulate_fails p g Hr) as [e ->]. discriminate.
Qed.

Lemma app_run_inv (p : params) (g : np.RandomState)
    (s : app.summary) (m : np.matrix) :
  app.run_simulation p g = OK (s, m) ->
  runnable p /\ m = closed_form always p g /\
  app.statistics (np.last_row m)
    (goal_amount p * powerRZ (1 + inflation_rate p / 100) (years p))
    (n_simulations p) = OK s.
Proof.
  unfold app.run_simulation.
  destruct (future_goal_of p) as [fg|] eqn:Efg; [|discriminate]. cbn [bind].
  pose proof (future_goal_in_range p fg Efg) as Hg.
  apply future_goal_inv in Efg. subst fg.
  destruct (loop_ready_dec p) as [Hr|Hr].
  - rewrite (app_simulate_closed_form p g Hr). cbn [bind].
    destruct (app.statistics _ _ _) as [s'|] eqn:Es; [|discriminate].
    cbn [bind]. intros H. injection H as <- <-.
    assert (Hn : (1 <= n_simulations p)%Z).
    { destruct (Z_le_dec 1 (n_simulations p)) as [|Hn]; [assumption|].
      exfalso. apply app_statistics_inv in Es. destruct Es as [Hne _].
      apply Hne. apply length_zero_iff_nil.
      rewrite closed_form_last_length. lia. }
    split; [unfold runnable; unfold loop_ready in Hr; tauto|].
    split; [reflexivity | exact Es].
  - destruct (app_simulate_fails p g Hr) as [e ->]. discriminate.
Qed.

Lemma mc_run_ok (p : params) (g : np.RandomState) :
  runnable p -> completes (monte_carlo.run_simulation p g).
Proof.
  intros H. unfold monte_carlo.run_simulation.
  rewrite (future_goal_ok p) by apply H. cbn [bind].
  rewrite (mc_simulate_closed_form p g (runnable_ready p H)). cbn [bind].
  destruct (mc_statistics_ok (np.last_row (closed_form skip_year_end p g))
              (goal_amount p * powerRZ (1 + inflation_rate p / 100) (years p))
              (n_simulations p)) as [s ->].
  - apply (nonempty_of_length _ (n_simulations p)); [apply H|].
    apply closed_form_last_length.
  - cbn [bind]. eexists. reflexivity.
Qed.

Lemma app_run_ok (p : params) (g : np.RandomState) :
  runnable p -> completes (app.run_simulation p g).
Proof.
  intros H. unfold app.run_simulation.
  rewrite (future_goal_ok p) by apply H. cbn [bind].
  rewrite (app_simulate_closed_form p g (runnable_ready p H)). cbn [bind].
  destruct (app_statistics_ok (np.last_row (closed_form always p g))
              (goal_amount p * powerRZ (1 + inflation_rate p / 100) (years p))
              (n_simulations p)) as [s ->].
  - apply (nonempty_of_length _ (n_simulations p)); [apply H|].
    apply closed_form_last_length.
  - cbn [bind]. eexists. reflexivity.
Qed.

(** ** Entries of the matrix *)

Lemma nth_map_seq (f : nat -> R) (n j : nat) :
  (j < n)%nat -> nth j (map f (seq 0 n)) 0 = f j.
Proof.
  intros H. rewrite (nth_indep _ 0 (f 0%nat))
    by (rewrite length_map, length_seq; exact H).
  rewrite map_nth, seq_nth by exact H. reflexivity.
Qed.

Lemma closed_form_row (contributes : Z -> bool) (p : params)
    (g : np.RandomState) (row : nat) :
  (row <= Z.to_nat (months_of p))%nat ->
  nth row (closed_form contributes p g) []
  = map (balance_of contributes p g row) (seq 0 (Z.to_nat (n_simulations p))).
Proof.
  intros H. unfold closed_form. rewrite trajectory_nth by exact H.
  reflexivity.
Qed.

Lemma closed_form_entry (contributes : Z -> bool) (p : params)
    (g : np.RandomState) (row col : nat) :
  (row <= Z.to_nat (months_of p))%nat ->
  (col < Z.to_nat (n_simulations p))%nat ->
  entry (closed_form contributes p g) row col
  = balance_of contributes p g row col.
Proof.
  intros Hr Hc. unfold entry. rewrite closed_form_row by exact Hr.
  apply nth_map_seq, Hc.
Qed.

Lemma closed_form_step (contributes : Z -> bool) (p : params)
    (g : np.RandomState) (month j : nat) :
  (1 <= month <= Z.to_nat (months_of p))%nat ->
  (j < Z.to_nat (n_simulations p))%nat ->
  entry (closed_form contributes p g) month j
  = entry (closed_form contributes p g) (month - 1) j
    * (1 + sample p g month j)
    + (if contributes (Z.of_nat month) then monthly_contribution p else 0).
Proof.
  intros Hm Hj. rewrite !closed_form_entry by lia.
  destruct month as [|k]; [lia|].
  unfold sample. replace (S k - 1)%nat with k by lia. reflexivity.
Qed.

(** ** Where the two contribution policies part *)

Lemma skip_year_end_small (m : nat) :
  (1 <= m < 12)%nat -> skip_year_end (Z.of_nat m) = true.
Proof.
  intros H. unfold skip_year_end. rewrite Z.mod_small by lia.
  destruct (Z.eqb_spec (Z.of_nat m) 0); [lia | reflexivity].
Qed.

Lemma skip_year_end_multiple (k : Z) : skip_year_end (k * 12) = false.
Proof.
  unfold skip_year_end. rewrite Z.mod_mul by lia. reflexivity.
Qed.

Lemma balance_same_first_year (p : params) (g : np.RandomState) (m j : nat) :
  (m < 12)%nat -> balance_of always p g m j = balance_of skip_year_end p g m j.
Proof.
  unfold balance_of. induction m as [|k IH]; intros H; [reflexivity|].
  cbn [balance]. rewrite IH by lia.
  rewrite (skip_year_end_small (S k)) by lia. reflexivity.
Qed.

Lemma balance_of_S (contributes : Z -> bool) (p : params)
    (g : np.RandomState) (k j : nat) :
  balance_of contributes p g (S k) j
  = balance_of contributes p g k j * (1 + sample p g (S k) j)
    + (if contributes (Z.of_nat (S k)) then monthly_contribution p else 0).
Proof.
  unfold balance_of, sample. replace (S k - 1)%nat with k by lia.
  reflexivity.
Qed.

Lemma balance_month_12 (p : params) (g : np.RandomState) (j : nat) :
  balance_of always p g 12 j
  = balance_of skip_year_end p g 12 j + monthly_contribution p.
Proof.
  rewrite !(balance_of_S _ p g 11).
  rewrite (balance_same_first_year p g 11 j) by lia.
  change (Z.of_nat 12) with (1 * 12)%Z.
  rewrite skip_year_end_multiple. unfold always. lra.
Qed.

Lemma closed_forms_differ (p : params) (g : np.RandomState) :
  (1 <= years p)%Z -> (1 <= n_simulations p)%Z ->
  monthly_contribution p <> 0 ->
  entry (closed_form always p g) 12 0
  <> entry (closed_form skip_year_end p g) 12 0.
Proof.
  intros Hy Hn Hc.
  rewrite !closed_form_entry by (unfold months_of; lia).
  rewrite balance_month_12. lra.
Qed.

Lemma final_first_year (contributes : Z -> bool) (p : params)
    (g : np.RandomState) :
  years p = 1%Z -> (1 <= n_simulations p)%Z ->
  nth 0 (np.last_row (closed_form contributes p g)) 0
  = balance_of contributes p g 12 0.
Proof.
  intros Hy Hn. rewrite closed_form_last.
  unfold months_of. rewrite Hy. change (Z.to_nat (1 * 12)) with 12%nat.
  unfold trajectory_row. rewrite nth_map_seq by lia. reflexivity.
Qed.

(** ** Concrete runs *)

Lemma threshold_above (k : Z) :
  (k < 2 ^ 1024 - 2 ^ 970)%Z -> IZR k < py.overflow_threshold.
Proof. intros H. unfold py.overflow_threshold. apply IZR_lt, H. Qed.

Lemma goal_in_range_small (p : params) :
  (0 <= years p <= 1000)%Z -> -100 <= inflation_rate p <= 100 ->
  goal_in_range p.
Proof.
  intros Hy Hi.
  assert (Hk : (1000 < 2 ^ 1024 - 2 ^ 970)%Z) by reflexivity.
  assert (Hp : (2 ^ 1000 < 2 ^ 1024 - 2 ^ 970)%Z) by reflexivity.
  split.
  - rewrite Rabs_pos_eq by (apply IZR_le; lia).
    apply threshold_above. lia.
  - set (b := 1 + inflation_rate p / 100).
    assert (Hb : 0 <= b <= 2) by (unfold b; lra).
    rewrite <- (Z2Nat.id (years p)) by lia.
    rewrite <- pow_powerRZ.
    rewrite Rabs_pos_eq by (apply pow_le; lra).
    apply Rle_lt_trans with (2 ^ Z.to_nat (years p)).
    + apply pow_incr. exact Hb.
    + apply Rle_lt_trans with (2 ^ 1000).
      * apply Rle_pow; [lra | lia].
      * change 2 with (IZR 2). rewrite pow_IZR.
        apply threshold_above. exact Hp.
Qed.

Lemma runnable_small (p : params) :
  (0 <= years p <= 1000)%Z -> (1 <= n_simulations p)%Z ->
  -100 <= annual_return p -> 0 <= annual_volatility p ->
  -100 <= inflation_rate p <= 100 ->
  runnable p.
Proof.
  intros Hy Hn Hr Hv Hi. unfold runnable.
  split; [lia|]. split; [exact Hn|]. split; [intros _; split; assumption|].
  now apply goal_in_range_small.
Qed.

Ltac small_run := apply runnable_small; simpl; try lia; lra.

Lemma one_year_runnable : runnable one_year_params.
Proof. small_run. Qed.


Lemma zero_volatility_runnable : runnable zero_volatility_params.
Proof. small_run. Qed.

Lemma mc_default_runnable : runnable monte_carlo.default_params.
Proof. small_run. Qed.

Lemma app_default_runnable : runnable app.default_params.
Proof. small_run. Qed.

(** * The properties of the specification *)

(** C1: given the same return samples, [app.py] adds the monthly contribution
    after the growth step of every month, and [monte_carlo.py] leaves it out
    in every month with [month % 12 == 0], the final month included.  For
    some parameters with a positive contribution and at least one year the
    two matrices, and the two rows of final balances, differ. *)
Theorem contribution_timing_disagrees :
  (forall p g sa ma sm mm,
      app.run_simulation p g = OK (sa, ma) ->
      monte_carlo.run_simulation p g = OK (sm, mm) ->
      (forall month j,
          (1 <= month <= Z.to_nat (months_of p))%nat ->
          (j < Z.to_nat (n_simulations p))%nat ->
          entry ma month j
          = entry ma (month - 1) j * (1 + sample p g month j)
            + monthly_contribution p
          /\ entry mm month j
             = entry mm (month - 1) j * (1 + sample p g month j)
               + (if (Z.of_nat month mod 12 =? 0)%Z then 0
                  else monthly_contribution p))
      /\ (forall j, (1 <= years p)%Z -> (j < Z.to_nat (n_simulations p))%nat ->
          entry mm (Z.to_nat (months_of p)) j
          = entry mm (Z.to_nat (months_of p) - 1) j
            * (1 + sample p g (Z.to_nat (months_of p)) j)))
  /\ (exists p g sa ma sm mm,
         0 < monthly_contribution p /\ (1 <= years p)%Z /\
         app.run_simulation p g = OK (sa, ma) /\
         monte_carlo.run_simulation p g = OK (sm, mm) /\
         ma <> mm /\ np.last_row ma <> np.last_row mm).
Proof.
  split.
  - intros p g sa ma sm mm Ha Hm.
    apply app_run_inv in Ha. destruct Ha as (Hr & -> & _).
    apply mc_run_inv in Hm. destruct Hm as (_ & -> & _).
    split; [intros month j Hmo Hj; split|].
    + rewrite (closed_form_step always) by assumption. reflexivity.
    + rewrite (closed_form_step skip_year_end) by assumption.
      unfold skip_year_end.
      destruct (Z.of_nat month mod 12 =? 0)%Z; reflexivity.
    + intros j Hy Hj.
      rewrite (closed_form_step skip_year_end) by (unfold months_of; lia).
      rewrite Z2Nat.id by (unfold months_of; lia).
      unfold months_of. rewrite skip_year_end_multiple. lra.
  - destruct (app_run_ok one_year_params zero_generator one_year_runnable)
      as [[sa ma] Ha].
    destruct (mc_run_ok one_year_params zero_generator one_year_runnable)
      as [[sm mm] Hm].
    exists one_year_params, zero_generator, sa, ma, sm, mm.
    split; [simpl; lra|]. split; [simpl; lia|].
    split; [exact Ha|]. split; [exact Hm|].
    apply app_run_inv in Ha. destruct Ha as (_ & -> & _).
    apply mc_run_inv in Hm. destruct Hm as (_ & -> & _).
    split.
    + intros E.
      apply (closed_forms_differ one_year_params zero_generator);
        [simpl; lia | simpl; lia | simpl; lra|].
      now rewrite E.
    + intros E.
      assert (E0 : nth 0 (np.last_row (closed_form always one_year_params
                                         zero_generator)) 0
                   = nth 0 (np.last_row (closed_form skip_year_end
                                           one_year_params zero_generator)) 0)
        by now rewrite E.
      rewrite !final_first_year, balance_month_12 in E0
        by (try reflexivity; simpl; lia).
      simpl in E0. lra.
Qed.




(** ** Which exception ends a run *)





Lemma future_goal_defined (p : params) :
  goal_in_range p -> ((years p < 0)%Z -> 1 + inflation_rate p / 100 <> 0) ->
  future_goal_of p
  = OK (goal_amount p * powerRZ (1 + inflation_rate p / 100) (years p)).
Proof.
  intros [Hn Hp] Hx. unfold future_goal_of.
  rewrite pow_int_ok by assumption. reflexivity.
Qed.












Lemma closed_form_well_shaped (contributes : Z -> bool) (p : params)
    (g : np.RandomState) :
  (0 <= years p)%Z -> well_shaped p (closed_form contributes p g).
Proof.
  intros Hy. unfold well_shaped. repeat split.
  - unfold closed_form. rewrite trajectory_length. unfold months_of. lia.
  - intros row Hrow. unfold closed_form, trajectory in Hrow.
    apply in_map_iff in Hrow. destruct Hrow as (k & <- & _).
    apply trajectory_row_length.
  - intros x Hx. rewrite closed_form_row in Hx by lia.
    apply in_map_iff in Hx. destruct Hx as (j & <- & _). reflexivity.
Qed.

Lemma initial_matrix_well_shaped (p : params) :
  (0 <= years p)%Z -> (0 <= n_simulations p)%Z ->
  exists zeros,
    np.zeros (months_of p + 1) (n_simulations p) = OK zeros
    /\ well_shaped p (np.fill_row zeros 0 (current_savings p)).
Proof.
  intros Hy Hn. eexists. split; [apply zeros_ok; assumption|].
  rewrite (zeros_filled always 0 0 0 (current_savings p)
             (Z.to_nat (n_simulations p)) zero_generator).
  unfold well_shaped. repeat split.
  - rewrite length_app, trajectory_length, repeat_length.
    unfold months_of. lia.
  - intros row Hrow. apply in_app_or in Hrow. destruct Hrow as [Hrow|Hrow].
    + unfold trajectory in Hrow. apply in_map_iff in Hrow.
      destruct Hrow as (k & <- & _). apply trajectory_row_length.
    + apply repeat_spec in Hrow. subst row. apply repeat_length.
  - intros x Hx. cbn in Hx. apply in_map_iff in Hx.
    destruct Hx as (j & <- & _). reflexivity.
Qed.

(** C3: with [years >= 1] and [n_simulations >= 1] the matrix that
    [run_simulation] allocates and seeds, and the matrix a completed run
    leaves behind, have [years * 12 + 1] rows of [n_simulations] entries
    each, and every entry of row 0 is [current_savings].  Both files
    complete, and leave such a matrix, when moreover the return is at least
    -100, the volatility is not negative and the inflation factor is within
    range. *)
Theorem trajectory_matrix_shape (p : params) (g : np.RandomState) :
  (1 <= years p)%Z -> (1 <= n_simulations p)%Z ->
  (exists zeros,
      np.zeros (months_of p + 1) (n_simulations p) = OK zeros
      /\ well_shaped p (np.fill_row zeros 0 (current_savings p)))
  /\ (forall s m, monte_carlo.run_simulation p g = OK (s, m) ->
                  well_shaped p m)
  /\ (forall s m, app.run_simulation p g = OK (s, m) -> well_shaped p m)
  /\ (-100 <= annual_return p -> 0 <= annual_volatility p ->
      goal_in_range p ->
      (exists s m, monte_carlo.run_simulation p g = OK (s, m)
                   /\ well_shaped p m)
      /\ (exists s m, app.run_simulation p g = OK (s, m)
                      /\ well_shaped p m)).
Proof.
  intros Hy Hn.
  assert (Hmc : forall s m, monte_carlo.run_simulation p g = OK (s, m) ->
                            well_shaped p m).
  { intros s m H. apply mc_run_inv in H. destruct H as (_ & -> & _).
    apply closed_form_well_shaped. lia. }
  assert (Happ : forall s m, app.run_simulation p g = OK (s, m) ->
                             well_shaped p m).
  { intros s m H. apply app_run_inv in H. destruct H as (_ & -> & _).
    apply closed_form_well_shaped. lia. }
  split; [apply initial_matrix_well_shaped; lia|].
  split; [exact Hmc|]. split; [exact Happ|].
  intros Hr Hv Hg.
  assert (Hrun : runnable p).
  { unfold runnable. split; [lia|]. split; [exact Hn|].
    split; [intros _; split; assumption | exact Hg]. }
  split.
  - destruct (mc_run_ok p g Hrun) as [[s m] H].
    exists s, m. split; [exact H | exact (Hmc s m H)].
  - destruct (app_run_ok p g Hrun) as [[s m] H].
    exists s, m. split; [exact H | exact (Happ s m H)].
Qed.

Lemma trajectory_matrix_shape_witness :
  (exists s m,
      monte_carlo.run_simulation one_year_params zero_generator = OK (s, m)
      /\ length m = 13%nat
      /\ (forall row, In row m -> length row = 1%nat)
      /\ (forall x, In x (nth 0 m []) -> x = 50000))
  /\ (exists s m,
         app.run_simulation one_year_params zero_generator = OK (s, m)
         /\ length m = 13%nat
         /\ (forall row, In row m -> length row = 1%nat)
         /\ (forall x, In x (nth 0 m []) -> x = 50000)).
Proof.
  destruct (trajectory_matrix_shape one_year_params zero_generator
              ltac:(simpl; lia) ltac:(simpl; lia)) as (_ & _ & _ & H).
  destruct H as [Hm Ha];
    [simpl; lra | simpl; lra
     | apply goal_in_range_small; simpl; [lia | lra] |].
  split.
  - destruct Hm as (s & m & H & W). exists s, m. split; [exact H | exact W].
  - destruct Ha as (s & m & H & W). exists s, m. split; [exact H | exact W].
Defined.

(** ** Success probability *)

Lemma INR_to_nat (n : Z) : (0 <= n)%Z -> INR (Z.to_nat n) = IZR n.
Proof. intros H. rewrite INR_IZR_INZ, Z2Nat.id by exact H. reflexivity. Qed.

Lemma success_probability_all (final_values : np.ndarray) (fg : R) (n : Z) :
  (1 <= n)%Z -> length final_values = Z.to_nat n ->
  (forall b, In b final_values -> fg <= b) ->
  success_probability_of final_values fg n = 100.
Proof.
  intros Hn Hl H. unfold success_probability_of, success_count.
  rewrite count_ge_all, Hl, INR_to_nat by (try assumption; lia).
  assert (Hz : IZR n <> 0) by (apply not_0_IZR; lia).
  field. exact Hz.
Qed.

Lemma success_probability_none (final_values : np.ndarray) (fg : R) (n : Z) :
  (forall b, In b final_values -> b < fg) ->
  success_probability_of final_values fg n = 0.
Proof.
  intros H. unfold success_probability_of, success_count.
  rewrite count_ge_none by assumption. unfold Rdiv. simpl. ring.
Qed.

Lemma success_probability_range (final_values : np.ndarray) (fg : R) (n : Z) :
  (1 <= n)%Z -> length final_values = Z.to_nat n ->
  0 <= success_probability_of final_values fg n <= 100.
Proof.
  intros Hn Hl. unfold success_probability_of, success_count.
  pose proof (count_ge_le_length final_values fg) as Hc. rewrite Hl in Hc.
  assert (H0 : 0 <= INR (np.count_ge final_values fg)) by apply pos_INR.
  assert (H1 : INR (np.count_ge final_values fg) <= IZR n).
  { rewrite <- INR_to_nat by lia. apply le_INR, Hc. }
  assert (Hz : 0 < IZR n) by (apply IZR_lt; lia).
  assert (Hi : 0 < / IZR n) by (apply Rinv_0_lt_compat, Hz).
  assert (Hq : INR (np.count_ge final_values fg) / IZR n <= 1).
  { apply Rmult_le_reg_r with (IZR n); [exact Hz|]. unfold Rdiv.
    rewrite Rmult_assoc, Rinv_l, Rmult_1_r, Rmult_1_l by lra. exact H1. }
  assert (Hp : 0 <= INR (np.count_ge final_values fg) / IZR n).
  { apply Rmult_le_pos; lra. }
  lra.
Qed.

Lemma reached_spec (final_values : np.ndarray) (fg b : R) :
  In b (filter (fun b => if Rle_dec fg b then true else false) final_values)
  <-> In b final_values /\ fg <= b.
Proof.
  rewrite filter_In. destruct (Rle_dec fg b); intuition discriminate.
Qed.

(** C4: the reported success probability is [(count / n_simulations) * 100],
    where [count] is the number of final balances [b] with
    [future_goal <= b]: a balance that equals the goal counts, a balance
    below it does not; a sample that sits exactly on the goal scores 100.
    Both files. *)
Theorem success_probability_inclusive (final_values : np.ndarray) (fg : R)
    (n : Z) :
  (1 <= n)%Z -> length final_values = Z.to_nat n ->
  let reached :=
    filter (fun b => if Rle_dec fg b then true else false) final_values in
  (forall b, In b reached <-> In b final_values /\ fg <= b)
  /\ (exists s, monte_carlo.statistics final_values fg n = OK s
                /\ monte_carlo.success_probability s
                   = INR (length reached) / IZR n * 100
                /\ (all_equal final_values fg ->
                    monte_carlo.success_probability s = 100))
  /\ (exists s, app.statistics final_values fg n = OK s
                /\ app.success_probability s
                   = INR (length reached) / IZR n * 100
                /\ (all_equal final_values fg ->
                    app.success_probability s = 100)).
Proof.
  intros Hn Hl. cbv zeta.
  assert (Hne : final_values <> []) by (apply (nonempty_of_length _ n Hn Hl)).
  assert (Htie : all_equal final_values fg ->
                 success_probability_of final_values fg n = 100).
  { intros Ha. apply success_probability_all; try assumption.
    intros b Hb. rewrite (Ha b Hb). lra. }
  split; [intros b; apply reached_spec|]. split.
  - destruct (mc_statistics_ok final_values fg n Hne) as [s Hs].
    exists s. split; [exact Hs|].
    apply mc_statistics_inv in Hs. destruct Hs as (_ & -> & _).
    split; [reflexivity | exact Htie].
  - destruct (app_statistics_ok final_values fg n Hne) as [s Hs].
    exists s. split; [exact Hs|].
    apply app_statistics_inv in Hs. destruct Hs as (_ & -> & _).
    split; [reflexivity | exact Htie].
Qed.

Lemma success_probability_inclusive_witness :
  exists s, monte_carlo.statistics [1; 2; 3] 2 3 = OK s
            /\ monte_carlo.success_probability s = 2 / 3 * 100.
Proof.
  destruct (proj1 (proj2 (success_probability_inclusive [1; 2; 3] 2 3
                            ltac:(lia) eq_refl)))
    as (s & Hs & Hp & _).
  exists s. split; [exact Hs|]. rewrite Hp. cbn [filter]. case_reals.
  cbn [length]. rewrite INR_IZR_INZ. simpl Z.of_nat. reflexivity.
Defined.

(** C10: for a sample of [n_simulations >= 1] final balances the success
    probability lies in [0, 100], and so does the shortfall probability
    [100 - success_probability] that [monte_carlo.py] reports. *)
Theorem success_probability_bounds (final_values : np.ndarray) (fg : R)
    (n : Z) :
  (1 <= n)%Z -> length final_values = Z.to_nat n ->
  (exists s, monte_carlo.statistics final_values fg n = OK s
             /\ 0 <= monte_carlo.success_probability s <= 100
             /\ monte_carlo.shortfall_probability s
                = 100 - monte_carlo.success_probability s
             /\ 0 <= monte_carlo.shortfall_probability s <= 100)
  /\ (exists s, app.statistics final_values fg n = OK s
                /\ 0 <= app.success_probability s <= 100
                /\ 0 <= 100 - app.success_probability s <= 100).
Proof.
  intros Hn Hl.
  assert (Hne : final_values <> []) by (apply (nonempty_of_length _ n Hn Hl)).
  pose proof (success_probability_range final_values fg n Hn Hl) as Hr.
  split.
  - destruct (mc_statistics_ok final_values fg n Hne) as [s Hs].
    exists s. split; [exact Hs|].
    apply mc_statistics_inv in Hs.
    destruct Hs as (_ & Hp & _ & _ & _ & _ & _ & _ & _ & _ & Hsh).
    rewrite Hsh, Hp. repeat split; lra.
  - destruct (app_statistics_ok final_values fg n Hne) as [s Hs].
    exists s. split; [exact Hs|].
    apply app_statistics_inv in Hs. destruct Hs as (_ & -> & _).
    repeat split; lra.
Qed.

Lemma success_probability_bounds_witness :
  exists s, monte_carlo.statistics [1; 3] 2 2 = OK s
            /\ 0 <= monte_carlo.success_probability s <= 100
            /\ 0 <= monte_carlo.shortfall_probability s <= 100.
Proof.
  destruct (proj1 (success_probability_bounds [1; 3] 2 2
                     ltac:(lia) eq_refl)) as (s & Hs & Hp & _ & Hsh).
  exists s. split; [exact Hs|]. split; [exact Hp | exact Hsh].
Defined.

(** C7: in the summary of [monte_carlo.py] the shortfall probability is
    [100 - success_probability]; the average shortfall is the mean of
    [future_goal - b] over exactly the final balances [b < future_goal], and
    0 when there is none; a sample that lies entirely below the goal has
    success probability 0. *)
Theorem shortfall_metrics (final_values : np.ndarray) (fg : R) (n : Z)
    (s : monte_carlo.summary) :
  monte_carlo.statistics final_values fg n = OK s ->
  let short := np.select_lt final_values fg in
  monte_carlo.shortfall_probability s = 100 - monte_carlo.success_probability s
  /\ (forall b, In b short <-> In b final_values /\ b < fg)
  /\ (short = [] -> monte_carlo.avg_shortfall s = 0)
  /\ (short <> [] ->
      monte_carlo.avg_shortfall s
      = np.sum (map (fun b => fg - b) short) / INR (length short))
  /\ ((forall b, In b final_values -> b < fg) ->
      monte_carlo.success_probability s = 0).
Proof.
  intros Hs short. apply mc_statistics_inv in Hs.
  destruct Hs as (Hne & Hp & _ & _ & _ & _ & _ & _ & _ & Havg & Hsh).
  split; [exact Hsh|]. split; [intros b; apply select_lt_spec|].
  split; [|split].
  - intros E. rewrite Havg. unfold avg_shortfall_of. fold short.
    rewrite E. reflexivity.
  - intros Hn. rewrite Havg. unfold avg_shortfall_of. fold short.
    unfold np.rsub at 1. rewrite length_map.
    destruct short as [|b t] eqn:E; [contradiction|].
    cbn [length Nat.ltb Nat.leb]. unfold np.mean, np.rsub.
    now rewrite length_map.
  - intros Hall. rewrite Hp. apply success_probability_none, Hall.
Qed.

Lemma shortfall_metrics_witness :
  exists s, monte_carlo.statistics [1; 5] 4 2 = OK s
            /\ monte_carlo.shortfall_probability s
               = 100 - monte_carlo.success_probability s
            /\ monte_carlo.avg_shortfall s = 3.
Proof.
  destruct (mc_statistics_ok [1; 5] 4 2 ltac:(discriminate)) as [s Hs].
  exists s. split; [exact Hs|].
  destruct (shortfall_metrics [1; 5] 4 2 s Hs) as (Hsh & _ & _ & Havg & _).
  split; [exact Hsh|].
  assert (E : np.select_lt [1; 5] 4 = [1])
    by (unfold np.select_lt; cbn [filter]; case_reals; reflexivity).
  rewrite E in Havg. rewrite Havg by discriminate.
  unfold np.sum. cbn [map fold_right length INR]. lra.
Defined.

(** C7 as stated fails in its last consequence.  [monte_carlo.py] averages
    the shortfalls, it does not subtract the mean of the sample from the
    goal, and in binary64 the two differ: three paths that end on the float
    of 0.1, all below a goal of 0.2, have success probability 0 and an
    average shortfall above [future_goal - mean(sample)]. *)
Lemma avg_shortfall_is_not_goal_minus_mean :
  exists finals fg,
    b64.monte_carlo.final_values b64.still_params b64.alternating
    = Some finals
    /\ b64.future_goal_of b64.still_params = Some fg
    /\ forallb (fun b => b64.less b fg) finals = true
    /\ b64.success_probability finals fg
         (b64.n_simulations b64.still_params) = b64.zero
    /\ b64.less (PrimFloat.sub fg (b64.mean finals))
         (b64.monte_carlo.avg_shortfall finals fg) = true.
Proof.
  exists [b64.tenth; b64.tenth; b64.tenth], b64.fifth.
  repeat split; vm_compute; reflexivity.
Qed.

(** ** Percentiles of a summary *)




(** ** No volatility *)

Lemma zero_volatility_scale (p : params) :
  annual_volatility p = 0 -> monthly_volatility_of p = 0.
Proof.
  intros H. unfold monthly_volatility_of. rewrite H. unfold Rdiv. ring.
Qed.









(** ** The inflated goal *)

Lemma inflation_factor_positive (p : params) :
  0 <= inflation_rate p ->
  0 < powerRZ (1 + inflation_rate p / 100) (years p).
Proof. intros Hi. apply powerRZ_lt. lra. Qed.

(** C6: the goal is inflated as
    [goal_amount * (1 + inflation_rate / 100) ** years], the percentage being
    divided by 100 once; that is the [future_goal] both summaries report;
    and it is non-negative when [goal_amount] and [inflation_rate] are.  The
    power has a value, and the goal with it, whenever it is within the
    binary64 range. *)
Theorem future_goal_inflation (p : params) (g : np.RandomState) :
  (forall fg, future_goal_of p = OK fg ->
     fg = goal_amount p * powerRZ (1 + inflation_rate p / 100) (years p))
  /\ (forall s m, monte_carlo.run_simulation p g = OK (s, m) ->
        monte_carlo.future_goal s
        = goal_amount p * (1 + inflation_rate p / 100) ^ Z.to_nat (years p))
  /\ (forall s m, app.run_simulation p g = OK (s, m) ->
        app.future_goal s
        = goal_amount p * (1 + inflation_rate p / 100) ^ Z.to_nat (years p))
  /\ (0 <= goal_amount p -> 0 <= inflation_rate p ->
      (forall fg, future_goal_of p = OK fg -> 0 <= fg)
      /\ (goal_in_range p -> exists fg, future_goal_of p = OK fg /\ 0 <= fg)
      /\ (forall s m, monte_carlo.run_simulation p g = OK (s, m) ->
            0 <= monte_carlo.future_goal s)
      /\ (forall s m, app.run_simulation p g = OK (s, m) ->
            0 <= app.future_goal s)).
Proof.
  assert (Hpow : (0 <= years p)%Z ->
            powerRZ (1 + inflation_rate p / 100) (years p)
            = (1 + inflation_rate p / 100) ^ Z.to_nat (years p)).
  { intros Hy. rewrite pow_powerRZ, Z2Nat.id by exact Hy. reflexivity. }
  assert (Hmc : forall s m, monte_carlo.run_simulation p g = OK (s, m) ->
            monte_carlo.future_goal s
            = goal_amount p
              * (1 + inflation_rate p / 100) ^ Z.to_nat (years p)).
  { intros s m H. apply mc_run_inv in H. destruct H as (Hr & _ & Hs).
    apply mc_statistics_inv in Hs. destruct Hs as (_ & _ & -> & _).
    rewrite Hpow by apply Hr. reflexivity. }
  assert (Happ : forall s m, app.run_simulation p g = OK (s, m) ->
            app.future_goal s
            = goal_amount p
              * (1 + inflation_rate p / 100) ^ Z.to_nat (years p)).
  { intros s m H. apply app_run_inv in H. destruct H as (Hr & _ & Hs).
    apply app_statistics_inv in Hs. destruct Hs as (_ & _ & -> & _).
    rewrite Hpow by apply Hr. reflexivity. }
  split; [intros fg; apply future_goal_inv|].
  split; [exact Hmc|]. split; [exact Happ|].
  intros Hg Hi.
  assert (Hnn : 0 <= goal_amount p
                     * powerRZ (1 + inflation_rate p / 100) (years p)).
  { apply Rmult_le_pos; [exact Hg|]. left.
    now apply inflation_factor_positive. }
  split; [intros fg H; apply future_goal_inv in H; now rewrite H|].
  split.
  - intros Hr. eexists. split; [|exact Hnn].
    apply future_goal_defined; [exact Hr|]. intros _. lra.
  - assert (Hnn' : 0 <= goal_amount p
                        * (1 + inflation_rate p / 100) ^ Z.to_nat (years p)).
    { apply Rmult_le_pos; [exact Hg|]. apply pow_le. lra. }
    split; intros s m H; [rewrite (Hmc s m H) | rewrite (Happ s m H)];
      exact Hnn'.
Qed.

Lemma future_goal_inflation_witness :
  exists s m,
    app.run_simulation app.default_params zero_generator = OK (s, m)
    /\ app.future_goal s = 1500000 * (1 + 5 / 2 / 100) ^ 30
    /\ 0 <= app.future_goal s.
Proof.
  destruct (app_run_ok app.default_params zero_generator app_default_runnable)
    as [[s m] H].
  pose proof (future_goal_inflation app.default_params zero_generator) as T.
  destruct T as (_ & _ & Hf & Hn).
  exists s, m. split; [exact H|]. split; [exact (Hf s m H)|].
  refine (proj2 (proj2 (proj2 (Hn _ _))) s m H); simpl; lra.
Defined.

(** ** De-annualization *)

Lemma twelfth_root_pow (x : R) : 0 < x -> Rpower x (1 / 12) ^ 12 = x.
Proof.
  intros Hx.
  assert (Hy : 0 < Rpower x (1 / 12)) by (unfold Rpower; apply exp_pos).
  rewrite <- (Rpower_pow 12 _ Hy), Rpower_mult.
  replace (1 / 12 * INR 12) with 1
    by (rewrite INR_IZR_INZ; simpl Z.of_nat; field).
  apply Rpower_1, Hx.
Qed.




Lemma monthly_drift_compounds (p : params) :
  -100 <= annual_return p ->
  0 <= 1 + monthly_drift p
  /\ (1 + monthly_drift p) ^ 12 = 1 + annual_return p / 100.
Proof.
  intros H. unfold monthly_drift, monthly_return_of, py.pow_frac, py.sub.
  destruct (Rlt_dec 0 (1 + annual_return p / 100)) as [Hb|Hb].
  - replace (1 + (Rpower (1 + annual_return p / 100) (1 / 12) - 1))
      with (Rpower (1 + annual_return p / 100) (1 / 12)) by ring.
    split; [left; unfold Rpower; apply exp_pos | now apply twelfth_root_pow].
  - destruct (Req_dec_T (1 + annual_return p / 100) 0) as [E|E]; [|lra].
    rewrite E. split; [lra|].
    replace (1 + (0 - 1)) with 0 by ring. apply pow_i. lia.
Qed.






(** ** Worked examples *)

Example sort_three : np.sort [3; 1; 2] = [1; 2; 3].
Proof. repeat (cbn [np.sort np.insert]; case_reals). reflexivity. Qed.

Example percentile_25_of_three : np.percentile [3; 1; 2] 25 = OK (3 / 2).
Proof.
  rewrite percentile_interpolate by (try discriminate; lia).
  rewrite sort_three. unfold interpolate.
  eval_index.
  cbn [length Nat.min Nat.add Nat.sub nth]. f_equal. lra.
Qed.

Example percentile_50_of_three : np.percentile [3; 1; 2] 50 = OK 2.
Proof.
  rewrite percentile_interpolate by (try discriminate; lia).
  rewrite sort_three. unfold interpolate.
  eval_index.
  cbn [length Nat.min Nat.add Nat.sub nth]. f_equal. lra.
Qed.

Example count_ge_is_inclusive : np.count_ge [1; 2; 3] 2 = 2%nat.
Proof. unfold np.count_ge. cbn [filter]. case_reals. reflexivity. Qed.

Example normal_rejects_negative_scale :
  np.normal (PyFloat 0) (-1) 3 zero_generator = Raise ValueError.
Proof. unfold np.normal. case_reals. reflexivity. Qed.

Example zeros_rejects_negative_rows : np.zeros (-11) 5 = Raise ValueError.
Proof. reflexivity. Qed.

Lemma flat_runnable : runnable flat_params.
Proof. small_run. Qed.

Lemma flat_drift : monthly_drift flat_params = 0.
Proof.
  unfold monthly_drift, monthly_return_of, py.pow_frac, py.sub.
  cbn [annual_return flat_params].
  replace (1 + 0 / 100) with 1 by lra. case_reals.
  unfold Rpower. rewrite ln_1, Rmult_0_r, exp_0. ring.
Qed.

Lemma flat_sample (g : np.RandomState) (month j : nat) :
  sample flat_params g month j = 0.
Proof.
  unfold sample, draw. rewrite flat_drift.
  rewrite (zero_volatility_scale flat_params eq_refl). ring.
Qed.

Lemma flat_balance_always (g : np.RandomState) (m j : nat) :
  balance_of always flat_params g m j = INR m.
Proof.
  induction m as [|k IH]; [reflexivity|].
  rewrite balance_of_S, IH, flat_sample, S_INR. unfold always.
  cbn [monthly_contribution flat_params]. ring.
Qed.

Example flat_final_balances :
  exists sa ma sm mm,
    app.run_simulation flat_params zero_generator = OK (sa, ma)
    /\ monte_carlo.run_simulation flat_params zero_generator = OK (sm, mm)
    /\ np.last_row ma = [12] /\ np.last_row mm = [11].
Proof.
  destruct (app_run_ok flat_params zero_generator flat_runnable)
    as [[sa ma] Ha].
  destruct (mc_run_ok flat_params zero_generator flat_runnable)
    as [[sm mm] Hm].
  exists sa, ma, sm, mm. split; [exact Ha|]. split; [exact Hm|].
  apply app_run_inv in Ha. destruct Ha as (_ & -> & _).
  apply mc_run_inv in Hm. destruct Hm as (_ & -> & _).
  rewrite !closed_form_last.
  change (Z.to_nat (months_of flat_params)) with 12%nat.
  change (Z.to_nat (n_simulations flat_params)) with 1%nat.
  unfold trajectory_row. cbn [seq map].
  pose proof (balance_month_12 flat_params zero_generator 0) as H12.
  rewrite flat_balance_always in H12. unfold balance_of in H12.
  change (monthly_contribution flat_params) with 1 in H12 at 2.
  change (Z.to_nat (n_simulations flat_params)) with 1%nat in H12.
  pose proof (flat_balance_always zero_generator 12 0) as HA.
  unfold balance_of in HA.
  change (Z.to_nat (n_simulations flat_params)) with 1%nat in HA.
  rewrite HA. rewrite INR_IZR_INZ in *. simpl Z.of_nat in *.
  split; f_equal. f_equal. lra.
Qed.

(** * Further properties of the two engines *)

(** ** Extremes of a sample *)










(** ** What a completed run is *)

Lemma mc_run_facts (p : params) (g : np.RandomState)
    (s : monte_carlo.summary) (m : np.matrix) :
  monte_carlo.run_simulation p g = OK (s, m) ->
  runnable p /\ m = closed_form skip_year_end p g
  /\ length (np.last_row m) = Z.to_nat (n_simulations p)
  /\ np.last_row m <> []
  /\ monte_carlo.statistics (np.last_row m)
       (goal_amount p * powerRZ (1 + inflation_rate p / 100) (years p))
       (n_simulations p) = OK s.
Proof.
  intros H. apply mc_run_inv in H. destruct H as (Hr & -> & Hs).
  split; [exact Hr|]. split; [reflexivity|].
  split; [apply closed_form_last_length|]. split; [|exact Hs].
  apply mc_statistics_inv in Hs. apply Hs.
Qed.

Lemma app_run_facts (p : params) (g : np.RandomState)
    (s : app.summary) (m : np.matrix) :
  app.run_simulation p g = OK (s, m) ->
  runnable p /\ m = closed_form always p g
  /\ length (np.last_row m) = Z.to_nat (n_simulations p)
  /\ np.last_row m <> []
  /\ app.statistics (np.last_row m)
       (goal_amount p * powerRZ (1 + inflation_rate p / 100) (years p))
       (n_simulations p) = OK s.
Proof.
  intros H. apply app_run_inv in H. destruct H as (Hr & -> & Hs).
  split; [exact Hr|]. split; [reflexivity|].
  split; [apply closed_form_last_length|]. split; [|exact Hs].
  apply app_statistics_inv in Hs. apply Hs.
Qed.



(** ** Shortfall *)

Lemma count_ge_select_lt (a : np.ndarray) (x : R) :
  (np.count_ge a x + length (np.select_lt a x))%nat = length a.
Proof.
  unfold np.count_ge, np.select_lt. induction a as [|b t IH]; simpl;
    [reflexivity|].
  destruct (Rle_dec x b), (Rlt_dec b x); simpl; try lia; exfalso; lra.
Qed.

Lemma sum_positive (l : np.ndarray) :
  l <> [] -> (forall x, In x l -> 0 < x) -> 0 < np.sum l.
Proof.
  unfold np.sum. induction l as [|h t IH]; intros Hl H; [congruence|].
  cbn [fold_right]. pose proof (H h (or_introl eq_refl)).
  destruct t as [|h' t']; [simpl; lra|].
  assert (0 < fold_right Rplus 0 (h' :: t')).
  { apply IH; [discriminate|]. intros y Hy. apply H. now right. }
  lra.
Qed.

Lemma success_probability_lt_100 (a : np.ndarray) (fg : R) (n : Z) :
  (1 <= n)%Z -> length a = Z.to_nat n ->
  (success_probability_of a fg n < 100 <-> np.select_lt a fg <> []).
Proof.
  intros Hn Hl. unfold success_probability_of, success_count.
  pose proof (count_ge_select_lt a fg) as Hc.
  assert (Hz : 0 < IZR n) by (apply IZR_lt; lia).
  assert (Hlen : INR (length a) = IZR n) by (rewrite Hl; apply INR_to_nat; lia).
  assert (Hq : INR (np.count_ge a fg) / IZR n * 100 < 100 <->
               INR (np.count_ge a fg) < IZR n).
  { split; intros H.
    - apply Rmult_lt_reg_r with (/ IZR n * 100).
      + apply Rmult_lt_0_compat; [apply Rinv_0_lt_compat, Hz | lra].
      + unfold Rdiv in H. rewrite <- Rmult_assoc.
        rewrite <- (Rmult_assoc (IZR n)), Rinv_r, Rmult_1_l by lra. exact H.
    - unfold Rdiv. rewrite Rmult_assoc.
      replace 100 with (IZR n * (/ IZR n * 100)) at 2 by (field; lra).
      apply Rmult_lt_compat_r; [|exact H].
      apply Rmult_lt_0_compat; [apply Rinv_0_lt_compat, Hz | lra]. }
  rewrite Hq, <- Hlen. split.
  - intros H E. rewrite E in Hc. simpl in Hc.
    rewrite Nat.add_0_r in Hc. rewrite Hc in H. lra.
  - intros H. apply lt_INR.
    destruct (np.select_lt a fg); [congruence | simpl in Hc; lia].
Qed.

(** X3: in the summary of a completed [monte_carlo.py] run the average
    shortfall is never negative, and it is positive exactly when the success
    probability is below 100, equivalently when the shortfall probability is
    positive. *)
Theorem shortfall_is_consistent (p : params) (g : np.RandomState)
    (s : monte_carlo.summary) (m : np.matrix) :
  monte_carlo.run_simulation p g = OK (s, m) ->
  0 <= monte_carlo.avg_shortfall s
  /\ (0 < monte_carlo.avg_shortfall s <->
      monte_carlo.success_probability s < 100)
  /\ (0 < monte_carlo.avg_shortfall s <->
      0 < monte_carlo.shortfall_probability s).
Proof.
  intros H. apply mc_run_facts in H. destruct H as (Hr & _ & Hl & Hne & Hs).
  set (a := np.last_row m) in *.
  set (fg := goal_amount p * powerRZ (1 + inflation_rate p / 100) (years p))
    in *.
  apply mc_statistics_inv in Hs.
  destruct Hs as (_ & Hp & Hfg & _ & _ & _ & _ & _ & _ & Havg & Hsh).
  pose proof (success_probability_lt_100 a fg (n_simulations p)
                ltac:(apply Hr) Hl) as Hlt.
  rewrite Hsh, Hp, Havg. unfold avg_shortfall_of.
  set (short := np.select_lt a fg) in *.
  assert (Hlen : length (np.rsub fg short) = length short)
    by (unfold np.rsub; apply length_map).
  rewrite Hlen.
  destruct short as [|b t] eqn:E.
  - cbn [length Nat.ltb Nat.leb].
    assert (Hno : ~ success_probability_of a fg (n_simulations p) < 100)
      by (intros Hc; apply Hlt in Hc; congruence).
    repeat split; try lra; intros; exfalso; lra.
  - cbn [length Nat.ltb Nat.leb].
    assert (Hyes : success_probability_of a fg (n_simulations p) < 100)
      by (apply Hlt; discriminate).
    assert (Hin : forall x, In x (np.rsub fg (b :: t)) -> 0 < x).
    { intros x Hx. unfold np.rsub in Hx. apply in_map_iff in Hx.
      destruct Hx as (y & <- & Hy). rewrite <- E in Hy.
      apply select_lt_spec in Hy. lra. }
    assert (Hne' : np.rsub fg (b :: t) <> []) by discriminate.
    assert (Hpos : 0 < np.mean (np.rsub fg (b :: t))).
    { unfold np.mean. apply Rmult_lt_0_compat.
      - apply sum_positive; [exact Hne'|]. exact Hin.
      - apply Rinv_0_lt_compat, lt_0_INR. simpl. lia. }
    repeat split; try lra; intros; lra.
Qed.

Lemma shortfall_is_consistent_witness :
  exists s m,
    monte_carlo.run_simulation monte_carlo.default_params zero_generator
    = OK (s, m)
    /\ 0 <= monte_carlo.avg_shortfall s.
Proof.
  destruct (mc_run_ok monte_carlo.default_params zero_generator
              mc_default_runnable) as [[s m] H].
  exists s, m. split; [exact H|].
  exact (proj1 (shortfall_is_consistent monte_carlo.default_params
                  zero_generator s m H)).
Defined.

(** ** The two contribution policies compared *)

Lemma balance_no_contribution (p : params) (g : np.RandomState) (m j : nat) :
  monthly_contribution p = 0 ->
  balance_of always p g m j = balance_of skip_year_end p g m j.
Proof.
  intros Hc. induction m as [|k IH]; [reflexivity|].
  rewrite !balance_of_S, IH, Hc. unfold always.
  destruct (skip_year_end (Z.of_nat (S k))); reflexivity.
Qed.

Lemma closed_form_no_contribution (p : params) (g : np.RandomState) :
  monthly_contribution p = 0 ->
  closed_form always p g = closed_form skip_year_end p g.
Proof.
  intros Hc. unfold closed_form, trajectory. apply map_ext. intros m.
  unfold trajectory_row. apply map_ext. intros j.
  apply (balance_no_contribution p g m j Hc).
Qed.

Lemma closed_form_row_first_year (p : params) (g : np.RandomState)
    (month : nat) :
  (month < 12)%nat ->
  nth month (closed_form always p g) []
  = nth month (closed_form skip_year_end p g) [].
Proof.
  intros Hm.
  destruct (Nat.le_gt_cases month (Z.to_nat (months_of p))) as [Hin|Hout].
  - rewrite !closed_form_row by exact Hin. apply map_ext. intros j.
    now apply balance_same_first_year.
  - rewrite !nth_overflow; [reflexivity | |];
      unfold closed_form; rewrite trajectory_length; lia.
Qed.

Lemma statistics_agree (a : np.ndarray) (fg : R) (n : Z)
    (sa : app.summary) (sm : monte_carlo.summary) :
  app.statistics a fg n = OK sa -> monte_carlo.statistics a fg n = OK sm ->
  same_statistics sa sm.
Proof.
  intros Ha Hm. apply app_statistics_inv in Ha. apply mc_statistics_inv in Hm.
  destruct Ha as (_ & Ap & Af & Apm & Amed & Amean & Astd & Amin & Amax & _).
  destruct Hm as (_ & Mp & Mf & Mpm & Mmed & Mmean & Mstd & Mmin & Mmax & _).
  assert (Epm : app.percentiles sa = monte_carlo.percentiles sm)
    by congruence.
  unfold same_statistics.
  repeat split; try congruence.
Qed.

(** X4: the two files differ by the contribution policy only.  Whatever
    the parameters, their matrices agree on the rows of months 0 to 11; and
    with a zero contribution they agree everywhere and the summaries share
    every common field. *)
Theorem policies_agree_without_contribution (p : params) (g : np.RandomState)
    (sa : app.summary) (ma : np.matrix)
    (sm : monte_carlo.summary) (mm : np.matrix) :
  app.run_simulation p g = OK (sa, ma) ->
  monte_carlo.run_simulation p g = OK (sm, mm) ->
  (forall month, (month < 12)%nat -> nth month ma [] = nth month mm [])
  /\ (monthly_contribution p = 0 -> ma = mm /\ same_statistics sa sm).
Proof.
  intros Ha Hm.
  apply app_run_facts in Ha. destruct Ha as (Hr & -> & _ & _ & Hsa).
  apply mc_run_facts in Hm. destruct Hm as (_ & -> & _ & _ & Hsm).
  split; [intros month Hmo; now apply closed_form_row_first_year|].
  intros Hc. pose proof (closed_form_no_contribution p g Hc) as E.
  split; [exact E|]. rewrite E in Hsa.
  exact (statistics_agree _ _ _ _ _ Hsa Hsm).
Qed.

Lemma policies_agree_without_contribution_witness :
  exists sa ma sm mm,
    app.run_simulation one_year_params zero_generator = OK (sa, ma)
    /\ monte_carlo.run_simulation one_year_params zero_generator = OK (sm, mm)
    /\ nth 11 ma [] = nth 11 mm [].
Proof.
  destruct (app_run_ok one_year_params zero_generator one_year_runnable)
    as [[sa ma] Ha].
  destruct (mc_run_ok one_year_params zero_generator one_year_runnable)
    as [[sm mm] Hm].
  exists sa, ma, sm, mm. split; [exact Ha|]. split; [exact Hm|].
  destruct (policies_agree_without_contribution one_year_params
              zero_generator sa ma sm mm Ha Hm) as (Hrows & _).
  apply Hrows; lia.
Defined.

(** ** Balances that stay non-negative *)

Lemma balance_nonneg (contributes : Z -> bool) (p : params)
    (g : np.RandomState) (m j : nat) :
  0 <= current_savings p -> 0 <= monthly_contribution p ->
  (forall month, (1 <= month <= m)%nat -> -1 <= sample p g month j) ->
  0 <= balance_of contributes p g m j.
Proof.
  intros Hs Hc. induction m as [|k IH]; intros Hr.
  - exact Hs.
  - rewrite balance_of_S.
    assert (Hk : 0 <= balance_of contributes p g k j)
      by (apply IH; intros month Hm; apply Hr; lia).
    pose proof (Hr (S k) ltac:(lia)) as Hd.
    assert (Hprod : 0 <= balance_of contributes p g k j
                         * (1 + sample p g (S k) j))
      by (apply Rmult_le_pos; lra).
    destruct (contributes (Z.of_nat (S k))); lra.
Qed.

(** X6: the code sets no floor, but a balance can only turn negative
    through a monthly return below -100%: when the savings and the
    contribution are non-negative and every sample applied to a column is at
    least -1, every balance of that column is non-negative.  Both files. *)
Theorem balances_stay_nonnegative (p : params) (g : np.RandomState) (j : nat) :
  0 <= current_savings p -> 0 <= monthly_contribution p ->
  (j < Z.to_nat (n_simulations p))%nat ->
  (forall month, (1 <= month <= Z.to_nat (months_of p))%nat ->
                 -1 <= sample p g month j) ->
  (forall s m, monte_carlo.run_simulation p g = OK (s, m) ->
     forall month, (month <= Z.to_nat (months_of p))%nat ->
                   0 <= entry m month j)
  /\ (forall s m, app.run_simulation p g = OK (s, m) ->
        forall month, (month <= Z.to_nat (months_of p))%nat ->
                      0 <= entry m month j).
Proof.
  intros Hs Hc Hj Hr. split; intros s m H month Hm.
  - apply mc_run_facts in H. destruct H as (_ & -> & _).
    rewrite closed_form_entry by assumption.
    apply balance_nonneg; try assumption. intros k Hk. apply Hr. lia.
  - apply app_run_facts in H. destruct H as (_ & -> & _).
    rewrite closed_form_entry by assumption.
    apply balance_nonneg; try assumption. intros k Hk. apply Hr. lia.
Qed.

Lemma zero_generator_sample (p : params) (month j : nat) :
  sample p zero_generator month j = monthly_drift p.
Proof. unfold sample, draw, zero_generator. cbn [np.variates]. ring. Qed.

Lemma balances_stay_nonnegative_witness :
  exists s m,
    app.run_simulation one_year_params zero_generator = OK (s, m)
    /\ 0 <= entry m 12 0.
Proof.
  destruct (app_run_ok one_year_params zero_generator one_year_runnable)
    as [[s m] H].
  exists s, m. split; [exact H|].
  refine (proj2 (balances_stay_nonnegative one_year_params zero_generator 0
                   _ _ _ _) s m H 12%nat _).
  - simpl; lra.
  - simpl; lra.
  - simpl; lia.
  - intros month _. rewrite zero_generator_sample.
    pose proof (monthly_drift_compounds one_year_params
                  ltac:(simpl; lra)) as [Hp _].
    lra.
  - simpl; lia.
Defined.

(** ** How much of the generator a run consumes *)

Lemma mc_simulate_inv (p : params) (g g' : np.RandomState) (m : np.matrix) :
  monte_carlo.simulate p g = OK (m, g') ->
  loop_ready p /\ m = closed_form skip_year_end p g
  /\ g' = advance (Z.to_nat (n_simulations p)) g (Z.to_nat (months_of p)).
Proof.
  intros H. destruct (loop_ready_dec p) as [Hr|Hr].
  - rewrite (mc_simulate_closed_form p g Hr) in H. injection H as <- <-.
    split; [exact Hr|]. split; reflexivity.
  - destruct (mc_simulate_fails p g Hr) as [e He]. congruence.
Qed.

Lemma app_simulate_inv (p : params) (g g' : np.RandomState) (m : np.matrix) :
  app.simulate p g = OK (m, g') ->
  loop_ready p /\ m = closed_form always p g
  /\ g' = advance (Z.to_nat (n_simulations p)) g (Z.to_nat (months_of p)).
Proof.
  intros H. destruct (loop_ready_dec p) as [Hr|Hr].
  - rewrite (app_simulate_closed_form p g Hr) in H. injection H as <- <-.
    split; [exact Hr|]. split; reflexivity.
  - destruct (app_simulate_fails p g Hr) as [e He]. congruence.
Qed.

(** X7: the month loop draws [n_simulations] variates per month and nothing
    else: when it completes, the generator has moved on by exactly
    [years * 12 * n_simulations] variates and the stream itself is
    untouched, so the next draw continues where this run stopped.  Both
    files. *)
Theorem loop_consumes_generator (p : params) (g : np.RandomState) :
  (forall m g', monte_carlo.simulate p g = OK (m, g') ->
     np.variates g' = np.variates g
     /\ Z.of_nat (np.position g')
        = (Z.of_nat (np.position g) + years p * 12 * n_simulations p)%Z)
  /\ (forall m g', app.simulate p g = OK (m, g') ->
        np.variates g' = np.variates g
        /\ Z.of_nat (np.position g')
           = (Z.of_nat (np.position g) + years p * 12 * n_simulations p)%Z).
Proof.
  split; intros m g' H.
  - apply mc_simulate_inv in H. destruct H as ((Hy & Hn & _) & _ & ->).
    unfold advance, months_of. cbn [np.variates np.position].
    split; [reflexivity|]. nia.
  - apply app_simulate_inv in H. destruct H as ((Hy & Hn & _) & _ & ->).
    unfold advance, months_of. cbn [np.variates np.position].
    split; [reflexivity|]. nia.
Qed.

(** ** Contributing every month never ends with less *)




Lemma success_probability_count_le (a b : np.ndarray) (fa fb : R) (n : Z) :
  (1 <= n)%Z -> (np.count_ge a fa <= np.count_ge b fb)%nat ->
  success_probability_of a fa n <= success_probability_of b fb n.
Proof.
  intros Hn Hc. unfold success_probability_of, success_count.
  assert (Hz : 0 < IZR n) by (apply IZR_lt; lia).
  assert (Hi : 0 < / IZR n) by (apply Rinv_0_lt_compat, Hz).
  apply le_INR in Hc. unfold Rdiv.
  apply Rmult_le_compat_r; [lra|]. apply Rmult_le_compat_r; lra.
Qed.



(** ** Raising the goal *)

Lemma count_ge_antitone (a : np.ndarray) (x y : R) :
  x <= y -> (np.count_ge a y <= np.count_ge a x)%nat.
Proof.
  intros H. unfold np.count_ge. induction a as [|b t IH]; simpl; [lia|].
  destruct (Rle_dec y b), (Rle_dec x b); simpl; try lia. exfalso. lra.
Qed.

(** X9: the goal has no influence on the trajectories, and on the same
    samples a higher goal never gives a higher success probability (for an
    inflation rate of at least -100%).  Both files. *)
Theorem higher_goal_lowers_success (p : params) (g : np.RandomState)
    (goal : R) :
  goal_amount p <= goal -> -100 <= inflation_rate p ->
  (forall s m s' m',
      monte_carlo.run_simulation p g = OK (s, m) ->
      monte_carlo.run_simulation (with_goal p goal) g = OK (s', m') ->
      m' = m
      /\ monte_carlo.future_goal s <= monte_carlo.future_goal s'
      /\ monte_carlo.success_probability s'
         <= monte_carlo.success_probability s)
  /\ (forall s m s' m',
         app.run_simulation p g = OK (s, m) ->
         app.run_simulation (with_goal p goal) g = OK (s', m') ->
         m' = m
         /\ app.future_goal s <= app.future_goal s'
         /\ app.success_probability s' <= app.success_probability s).
Proof.
  intros Hg Hi.
  assert (Hfg : (0 <= years p)%Z ->
            goal_amount p * powerRZ (1 + inflation_rate p / 100) (years p)
            <= goal * powerRZ (1 + inflation_rate p / 100) (years p)).
  { intros Hy. apply Rmult_le_compat_r; [|exact Hg].
    rewrite <- (Z2Nat.id (years p)) by exact Hy. rewrite <- pow_powerRZ.
    apply pow_le. lra. }
  split; intros s m s' m' H H'.
  - apply mc_run_facts in H. destruct H as (Hr & -> & _ & _ & Hs).
    apply mc_run_facts in H'. destruct H' as (_ & -> & _ & _ & Hs').
    change (closed_form skip_year_end (with_goal p goal) g)
      with (closed_form skip_year_end p g) in *.
    cbn [with_goal goal_amount inflation_rate years n_simulations] in Hs'.
    apply mc_statistics_inv in Hs. apply mc_statistics_inv in Hs'.
    destruct Hs as (_ & -> & -> & _). destruct Hs' as (_ & -> & -> & _).
    split; [reflexivity|]. split; [apply Hfg, Hr|].
    apply success_probability_count_le; [apply Hr|].
    apply count_ge_antitone, Hfg, Hr.
  - apply app_run_facts in H. destruct H as (Hr & -> & _ & _ & Hs).
    apply app_run_facts in H'. destruct H' as (_ & -> & _ & _ & Hs').
    change (closed_form always (with_goal p goal) g)
      with (closed_form always p g) in *.
    cbn [with_goal goal_amount inflation_rate years n_simulations] in Hs'.
    apply app_statistics_inv in Hs. apply app_statistics_inv in Hs'.
    destruct Hs as (_ & -> & -> & _). destruct Hs' as (_ & -> & -> & _).
    split; [reflexivity|]. split; [apply Hfg, Hr|].
    apply success_probability_count_le; [apply Hr|].
    apply count_ge_antitone, Hfg, Hr.
Qed.

Lemma higher_goal_lowers_success_witness :
  exists s m s' m',
    app.run_simulation app.default_params zero_generator = OK (s, m)
    /\ app.run_simulation (with_goal app.default_params 2000000)
         zero_generator = OK (s', m')
    /\ app.success_probability s' <= app.success_probability s.
Proof.
  destruct (app_run_ok app.default_params zero_generator app_default_runnable)
    as [[s m] H].
  destruct (app_run_ok (with_goal app.default_params 2000000) zero_generator
              app_default_runnable) as [[s' m'] H'].
  exists s, m, s', m'. split; [exact H|]. split; [exact H'|].
  refine (proj2 (proj2 (proj2 (higher_goal_lowers_success app.default_params
            zero_generator 2000000 _ _) s m s' m' H H'))); simpl; lra.
Defined.

(** * Properties of the presentation layer *)

(** ** Strided views *)

Lemma step_from_length (k : nat) (a : np.ndarray) (skip : nat) :
  (1 <= k)%nat -> (skip < k)%nat ->
  length (step_from k skip a) = ((length a + k - 1 - skip) / k)%nat.
Proof.
  intros Hk. revert skip. induction a as [|x t IH]; intros skip Hs.
  - simpl. symmetry. apply Nat.div_small. lia.
  - destruct skip as [|s]; cbn [step_from length].
    + rewrite IH by lia.
      replace (length t + k - 1 - (k - 1))%nat with (length t) by lia.
      replace (S (length t) + k - 1 - 0)%nat with (length t + 1 * k)%nat
        by lia.
      rewrite Nat.div_add by lia. lia.
    + rewrite IH by lia. f_equal. lia.
Qed.

Lemma step_from_nth (k : nat) (a : np.ndarray) (skip i : nat) (d : R) :
  (1 <= k)%nat -> (skip < k)%nat ->
  nth i (step_from k skip a) d = nth (skip + i * k) a d.
Proof.
  intros Hk. revert skip i. induction a as [|x t IH]; intros skip i Hs.
  - simpl. destruct i, (skip + _)%nat; reflexivity.
  - destruct skip as [|s]; cbn [step_from].
    + destruct i as [|i]; [reflexivity|]. cbn [nth].
      rewrite IH by lia.
      replace (0 + S i * k)%nat with (S (k - 1 + i * k)) by lia.
      reflexivity.
    + rewrite IH by lia. reflexivity.
Qed.

Lemma np_step_length (a : np.ndarray) :
  length (np_step 12 a) = ((length a + 11) / 12)%nat.
Proof.
  unfold np_step. rewrite step_from_length by lia. f_equal. lia.
Qed.

Lemma np_step_nth (a : np.ndarray) (i : nat) :
  nth i (np_step 12 a) 0 = nth (i * 12) a 0.
Proof. unfold np_step. now rewrite step_from_nth by lia. Qed.

Lemma np_step_map_seq (f : nat -> R) (y : nat) :
  np_step 12 (map f (seq 0 (S (12 * y))))
  = map (fun k => f (12 * k)%nat) (seq 0 (S y)).
Proof.
  assert (Hlen : ((S (12 * y) + 11) / 12 = S y)%nat).
  { replace (S (12 * y) + 11)%nat with (0 + (S y) * 12)%nat by lia.
    rewrite Nat.div_add by lia. reflexivity. }
  apply (nth_ext _ _ 0 0).
  - rewrite np_step_length, !length_map, !length_seq. exact Hlen.
  - intros i Hi. rewrite np_step_length, length_map, length_seq, Hlen in Hi.
    rewrite np_step_nth, !nth_map_seq by lia. f_equal. lia.
Qed.

Lemma for_list_map {A B : Type} (f : A -> result B) (h : A -> B)
    (l : list A) :
  (forall x, In x l -> f x = OK (h x)) -> for_list f l = OK (map h l).
Proof.
  induction l as [|x t IH]; intros H; [reflexivity|].
  cbn [for_list map]. rewrite (H x (or_introl eq_refl)). cbn [bind].
  rewrite IH by (intros y Hy; apply H; now right). reflexivity.
Qed.

Lemma range_length (a b : Z) : length (py.range a b) = Z.to_nat (b - a).
Proof. unfold py.range. now rewrite length_map, length_seq. Qed.

Lemma range_in (a b x : Z) : In x (py.range a b) -> (a <= x < b)%Z.
Proof.
  unfold py.range. intros H. apply in_map_iff in H.
  destruct H as (k & <- & Hk). apply in_seq in Hk. lia.
Qed.

(** ** The matrix of a run, seen by the plots *)

Lemma closed_form_shape0 (contributes : Z -> bool) (p : params)
    (g : np.RandomState) :
  (0 <= years p)%Z -> (np_shape0 (closed_form contributes p g) / 12)%Z = years p.
Proof.
  intros Hy. unfold np_shape0, closed_form. rewrite trajectory_length.
  unfold months_of.
  replace (Z.of_nat (S (Z.to_nat (years p * 12)))) with (1 + years p * 12)%Z
    by lia.
  rewrite Z.div_add by lia. reflexivity.
Qed.

Lemma closed_form_shape1 (contributes : Z -> bool) (p : params)
    (g : np.RandomState) :
  (0 <= n_simulations p)%Z ->
  np_shape1 (closed_form contributes p g) = n_simulations p.
Proof.
  intros Hn. unfold np_shape1, closed_form, trajectory. cbn [seq map hd].
  rewrite trajectory_row_length. lia.
Qed.

Lemma closed_form_column (contributes : Z -> bool) (p : params)
    (g : np.RandomState) (i : Z) :
  (0 <= i < n_simulations p)%Z ->
  np_column (closed_form contributes p g) i
  = OK (map (fun m => balance_of contributes p g m (Z.to_nat i))
          (seq 0 (S (Z.to_nat (months_of p))))).
Proof.
  intros Hi. unfold np_column. rewrite closed_form_shape1 by lia.
  destruct (Z.leb_spec 0 i); [|lia]. destruct (Z.ltb_spec i (n_simulations p));
    [|lia].
  cbn [andb]. f_equal. unfold closed_form, trajectory. rewrite map_map.
  apply map_ext. intros m. unfold trajectory_row.
  rewrite nth_map_seq by lia. reflexivity.
Qed.

Lemma sample_path_closed_form (contributes : Z -> bool) (p : params)
    (g : np.RandomState) (i : Z) :
  (0 <= years p)%Z -> (0 <= i < n_simulations p)%Z ->
  sample_path (closed_form contributes p g) (years p) i
  = OK (yearly_points contributes p g i).
Proof.
  intros Hy Hi. unfold sample_path. rewrite closed_form_column by exact Hi.
  cbn [bind]. unfold months_of.
  replace (Z.to_nat (years p * 12)) with (12 * Z.to_nat (years p))%nat by lia.
  rewrite np_step_map_seq. unfold np_div. rewrite map_map.
  unfold plt.plot. rewrite range_length, length_map, length_seq.
  replace (Z.to_nat (years p + 1 - 0)) with (S (Z.to_nat (years p))) by lia.
  rewrite Nat.eqb_refl. unfold yearly_points. do 2 f_equal.
  apply map_ext_in. intros k Hk. apply in_seq in Hk.
  rewrite closed_form_entry by (unfold months_of; lia). reflexivity.
Qed.

Lemma paths_closed_form (contributes : Z -> bool) (p : params)
    (g : np.RandomState) (shown : Z) :
  runnable p ->
  for_list (sample_path (closed_form contributes p g)
              (np_shape0 (closed_form contributes p g) / 12))
    (py.range 0 (Z.min shown (np_shape1 (closed_form contributes p g))))
  = OK (map (yearly_points contributes p g)
          (py.range 0 (Z.min shown (n_simulations p)))).
Proof.
  intros (Hy & Hn & _). rewrite closed_form_shape0, closed_form_shape1 by lia.
  apply for_list_map. intros i Hi. apply range_in in Hi.
  apply sample_path_closed_form; lia.
Qed.

Lemma pie_ok (a b : R) : 0 <= a -> 0 <= b -> plt.pie [a; b] = OK [a; b].
Proof.
  intros Ha Hb. unfold plt.pie. cbn [existsb].
  destruct (Rlt_dec a 0); [lra|]. destruct (Rlt_dec b 0); [lra|].
  reflexivity.
Qed.

Lemma create_plot_figure (p : params) (g : np.RandomState)
    (s : app.summary) (m : np.matrix) :
  app.run_simulation p g = OK (s, m) ->
  exists fig,
    app_web.create_plot (Some m) s = Some fig
    /\ app_web.histogram fig = np.last_row m
    /\ app_web.wedges fig
       = [app.success_probability s; 100 - app.success_probability s]
    /\ 0 <= app.success_probability s
    /\ 0 <= 100 - app.success_probability s
    /\ app_web.bars fig = bar_values (app.percentiles s)
    /\ app_web.sample_paths fig
       = map (fun i =>
                (py.range 0 (years p + 1),
                 map (fun k => entry m (12 * k) (Z.to_nat i) / 1000)
                   (seq 0 (S (Z.to_nat (years p))))))
           (py.range 0 (Z.min 10 (n_simulations p))).
Proof.
  intros H. apply app_run_facts in H. destruct H as (Hr & -> & Hl & _ & Hs).
  apply app_statistics_inv in Hs. destruct Hs as (_ & Hp & _).
  pose proof (success_probability_range _
                (goal_amount p
                 * powerRZ (1 + inflation_rate p / 100) (years p))
                (n_simulations p) ltac:(apply Hr) Hl) as Hrange.
  rewrite <- Hp in Hrange.
  unfold app_web.create_plot, app_web.draw_plot, plt.hist. cbn [bind].
  rewrite pie_ok by lra. cbn [bind].
  rewrite (paths_closed_form always p g 10 Hr). cbn [bind].
  eexists. split; [reflexivity|]. cbn.
  repeat split; lra.
Qed.

(** X10: the figure [create_plot] of [app.py] returns after a completed
    run.  The pie gets the success probability and its complement, both
    non-negative; the paths panel shows the first [min(10, n_simulations)]
    columns, each with one point per year boundary, [years + 1] points
    against [range(years + 1)], the k-th being the balance at month [12 k]
    in thousands.  Before any run there is no matrix to draw, and the
    [except] branch returns [None]. *)
Theorem create_plot_after_run (p : params) (g : np.RandomState)
    (s : app.summary) (m : np.matrix) (fig : app_web.figure) :
  app.run_simulation p g = OK (s, m) ->
  app_web.create_plot (Some m) s = Some fig ->
  app_web.histogram fig = np.last_row m
  /\ app_web.wedges fig
     = [app.success_probability s; 100 - app.success_probability s]
  /\ 0 <= app.success_probability s
  /\ 0 <= 100 - app.success_probability s
  /\ app_web.bars fig = bar_values (app.percentiles s)
  /\ app_web.sample_paths fig
     = map (fun i =>
              (py.range 0 (years p + 1),
               map (fun k => entry m (12 * k) (Z.to_nat i) / 1000)
                 (seq 0 (S (Z.to_nat (years p))))))
         (py.range 0 (Z.min 10 (n_simulations p)))
  /\ app_web.create_plot None s = None.
Proof.
  intros H Hfig.
  destruct (create_plot_figure p g s m H) as (fig' & Hfig' & Hfacts).
  assert (E : fig' = fig) by congruence. subst fig'.
  destruct Hfacts as (H1 & H2 & H3 & H4 & H5 & H6).
  repeat split; assumption.
Qed.

Lemma create_plot_after_run_witness :
  exists s m fig,
    app.run_simulation app.default_params zero_generator = OK (s, m)
    /\ app_web.create_plot (Some m) s = Some fig
    /\ length (app_web.sample_paths fig) = 10%nat.
Proof.
  destruct (app_run_ok app.default_params zero_generator app_default_runnable)
    as [[s m] H].
  destruct (create_plot_figure app.default_params zero_generator s m H)
    as (fig & Hfig & _).
  destruct (create_plot_after_run app.default_params zero_generator s m fig
              H Hfig) as (_ & _ & _ & _ & _ & Hpaths & _).
  exists s, m, fig. split; [exact H|]. split; [exact Hfig|].
  rewrite Hpaths, length_map, range_length. reflexivity.
Defined.

(** ** The median *)

Lemma median_rows_closed_form (contributes : Z -> bool) (p : params)
    (g : np.RandomState) :
  (0 <= years p)%Z ->
  np_step 12 (np_median_rows (np_first_columns 50 (closed_form contributes p g)))
  = map (fun k => np_median
                    (firstn 50 (nth (12 * k) (closed_form contributes p g) [])))
      (seq 0 (S (Z.to_nat (years p)))).
Proof.
  intros Hy. unfold np_median_rows, np_first_columns.
  unfold closed_form at 1, trajectory. rewrite !map_map. unfold months_of.
  replace (Z.to_nat (years p * 12)) with (12 * Z.to_nat (years p))%nat by lia.
  rewrite np_step_map_seq. apply map_ext_in. intros k Hk. apply in_seq in Hk.
  rewrite closed_form_row by (unfold months_of; lia). reflexivity.
Qed.

Lemma plot_results_figure (p : params) (g : np.RandomState)
    (s : monte_carlo.summary) (m : np.matrix) :
  monte_carlo.run_simulation p g = OK (s, m) ->
  exists fig,
    mc_tools.plot_results (Some m) s = OK fig
    /\ mc_tools.wedges fig
       = [monte_carlo.success_probability s;
          100 - monte_carlo.success_probability s]
    /\ mc_tools.sample_paths fig
       = map (fun i =>
                (py.range 0 (years p + 1),
                 map (fun k => entry m (12 * k) (Z.to_nat i) / 1000)
                   (seq 0 (S (Z.to_nat (years p))))))
           (py.range 0 (Z.min 50 (n_simulations p)))
    /\ mc_tools.median_path fig
       = (py.range 0 (years p + 1),
          map (fun k => np_median (firstn 50 (nth (12 * k) m [])) / 1000)
            (seq 0 (S (Z.to_nat (years p))))).
Proof.
  intros H. apply mc_run_facts in H. destruct H as (Hr & -> & Hl & Hne & Hs).
  apply mc_statistics_inv in Hs.
  destruct Hs as (_ & Hp & _).
  pose proof (success_probability_range _
                (goal_amount p
                 * powerRZ (1 + inflation_rate p / 100) (years p))
                (n_simulations p) ltac:(apply Hr) Hl) as Hrange.
  rewrite <- Hp in Hrange.
  assert (Hy : (0 <= years p)%Z) by apply Hr.
  unfold mc_tools.plot_results, plt.hist. cbn [bind].
  rewrite pie_ok by lra. cbn [bind].
  rewrite (paths_closed_form skip_year_end p g 50 Hr). cbn [bind].
  rewrite closed_form_shape0 by exact Hy.
  rewrite (median_rows_closed_form skip_year_end p g Hy).
  unfold plt.plot, np_div.
  rewrite range_length, !length_map, length_seq.
  replace (Z.to_nat (years p + 1 - 0)) with (S (Z.to_nat (years p))) by lia.
  rewrite Nat.eqb_refl. cbn [bind]. rewrite map_map.
  eexists. split; [reflexivity|].
  cbn [mc_tools.wedges mc_tools.sample_paths mc_tools.median_path snd].
  split; [reflexivity|]. split; reflexivity.
Qed.

(** X11: the figure [plot_results] of [monte_carlo.py] draws after a
    completed run.  It shows the first [min(50, n_simulations)] columns at
    the year boundaries, and a median path whose k-th point is the median,
    over the first 50 columns, of the balances at month [12 k], in
    thousands.  Before any run there is no matrix to draw: a [TypeError]
    that nothing catches. *)
Theorem plot_results_after_run (p : params) (g : np.RandomState)
    (s : monte_carlo.summary) (m : np.matrix) (fig : mc_tools.figure) :
  monte_carlo.run_simulation p g = OK (s, m) ->
  mc_tools.plot_results (Some m) s = OK fig ->
  mc_tools.wedges fig
  = [monte_carlo.success_probability s;
     100 - monte_carlo.success_probability s]
  /\ mc_tools.sample_paths fig
     = map (fun i =>
              (py.range 0 (years p + 1),
               map (fun k => entry m (12 * k) (Z.to_nat i) / 1000)
                 (seq 0 (S (Z.to_nat (years p))))))
         (py.range 0 (Z.min 50 (n_simulations p)))
  /\ mc_tools.median_path fig
     = (py.range 0 (years p + 1),
        map (fun k => np_median (firstn 50 (nth (12 * k) m [])) / 1000)
          (seq 0 (S (Z.to_nat (years p)))))
  /\ mc_tools.plot_results None s = Raise TypeError.
Proof.
  intros H Hfig.
  destruct (plot_results_figure p g s m H) as (fig' & Hfig' & Hfacts).
  assert (E : fig' = fig) by congruence. subst fig'.
  destruct Hfacts as (H1 & H2 & H3).
  repeat split; assumption.
Qed.

Lemma plot_results_after_run_witness :
  exists s m fig,
    monte_carlo.run_simulation zero_volatility_params zero_generator
    = OK (s, m)
    /\ mc_tools.plot_results (Some m) s = OK fig
    /\ length (mc_tools.sample_paths fig) = 3%nat
    /\ length (snd (mc_tools.median_path fig)) = 2%nat.
Proof.
  destruct (mc_run_ok zero_volatility_params zero_generator
              zero_volatility_runnable) as [[s m] H].
  destruct (plot_results_figure zero_volatility_params zero_generator s m H)
    as (fig & Hfig & _).
  destruct (plot_results_after_run zero_volatility_params zero_generator
              s m fig H Hfig) as (_ & Hpaths & Hmed & _).
  exists s, m, fig. split; [exact H|]. split; [exact Hfig|].
  rewrite Hpaths, Hmed. cbn [snd].
  rewrite !length_map, range_length, length_seq. split; reflexivity.
Defined.

(** ** Ratings *)

Lemma probability_at_least (c : nat) (n t : Z) :
  (1 <= n)%Z ->
  (IZR t <= INR c / IZR n * 100 <-> (t * n <= 100 * Z.of_nat c)%Z).
Proof.
  intros Hn. assert (Hz : 0 < IZR n) by (apply IZR_lt; lia).
  rewrite INR_IZR_INZ.
  assert (Hmul : IZR t <= IZR (Z.of_nat c) / IZR n * 100 <->
                 IZR t * IZR n <= IZR 100 * IZR (Z.of_nat c)).
  { split; intros H.
    - apply (Rmult_le_compat_r (IZR n)) in H; [|lra].
      replace (IZR (Z.of_nat c) / IZR n * 100 * IZR n)
        with (IZR 100 * IZR (Z.of_nat c)) in H by (field; lra).
      exact H.
    - apply (Rmult_le_reg_r (IZR n)); [exact Hz|].
      replace (IZR (Z.of_nat c) / IZR n * 100 * IZR n)
        with (IZR 100 * IZR (Z.of_nat c)) by (field; lra).
      exact H. }
  rewrite Hmul, <- !mult_IZR.
  split; intros H; [apply le_IZR in H | apply IZR_le]; exact H.
Qed.

Lemma rating_by_count (prob : R) (c : nat) (n : Z) :
  (1 <= n)%Z -> prob = INR c / IZR n * 100 ->
  let r := if Rle_dec 80 prob then high
           else if Rle_dec 60 prob then medium else low in
  (r = high <-> (4 * n <= 5 * Z.of_nat c)%Z)
  /\ (r = medium <->
      (3 * n <= 5 * Z.of_nat c)%Z /\ (5 * Z.of_nat c < 4 * n)%Z)
  /\ (r = low <-> (5 * Z.of_nat c < 3 * n)%Z).
Proof.
  intros Hn ->.
  pose proof (probability_at_least c n 80 Hn) as H80.
  pose proof (probability_at_least c n 60 Hn) as H60.
  cbv zeta.
  destruct (Rle_dec 80 (INR c / IZR n * 100)) as [A|A];
    [|destruct (Rle_dec 60 (INR c / IZR n * 100)) as [B|B]].
  - apply H80 in A. repeat split; intros; try discriminate; try lia.
  - apply H60 in B.
    assert (~ (80 * n <= 100 * Z.of_nat c)%Z) by (intros X; apply A, H80, X).
    repeat split; intros; try discriminate; try lia.
  - assert (~ (80 * n <= 100 * Z.of_nat c)%Z) by (intros X; apply A, H80, X).
    assert (~ (60 * n <= 100 * Z.of_nat c)%Z) by (intros X; apply B, H60, X).
    repeat split; intros; try discriminate; try lia.
Qed.

(** X12: the report's recommendation and the colour of the page sort a run
    by the same thresholds, which count paths: the rating is the top one
    when at least four fifths of the paths reach the goal, the middle one
    when at least three fifths but fewer than four fifths do, and the
    bottom one below that. *)
Theorem ratings_count_paths (p : params) (g : np.RandomState) :
  (forall s m, monte_carlo.run_simulation p g = OK (s, m) ->
     let c := Z.of_nat (np.count_ge (np.last_row m)
                          (monte_carlo.future_goal s)) in
     (mc_tools.recommendation s = high <-> (4 * n_simulations p <= 5 * c)%Z)
     /\ (mc_tools.recommendation s = medium <->
         (3 * n_simulations p <= 5 * c)%Z /\ (5 * c < 4 * n_simulations p)%Z)
     /\ (mc_tools.recommendation s = low <->
         (5 * c < 3 * n_simulations p)%Z))
  /\ (forall s m, app.run_simulation p g = OK (s, m) ->
        let c := Z.of_nat (np.count_ge (np.last_row m) (app.future_goal s)) in
        let shown := app_web.probability_class (app.success_probability s) in
        (shown = high <-> (4 * n_simulations p <= 5 * c)%Z)
        /\ (shown = medium <->
            (3 * n_simulations p <= 5 * c)%Z
            /\ (5 * c < 4 * n_simulations p)%Z)
        /\ (shown = low <-> (5 * c < 3 * n_simulations p)%Z)).
Proof.
  split; intros s m H.
  - apply mc_run_facts in H. destruct H as (Hr & _ & _ & _ & Hs).
    apply mc_statistics_inv in Hs. destruct Hs as (_ & Hp & Hf & _).
    rewrite Hf. unfold mc_tools.recommendation.
    apply rating_by_count; [apply Hr | exact Hp].
  - apply app_run_facts in H. destruct H as (Hr & _ & _ & _ & Hs).
    apply app_statistics_inv in Hs. destruct Hs as (_ & Hp & Hf & _).
    rewrite Hf. unfold app_web.probability_class.
    apply rating_by_count; [apply Hr | exact Hp].
Qed.

(** ** The page *)

Lemma or_default_nonzero (v : option R) (d : R) :
  d <> 0 -> app_web.or_default v d <> 0.
Proof.
  intros Hd. unfold app_web.or_default. destruct v as [r|]; [|exact Hd].
  destruct (Req_dec_T r 0); assumption.
Qed.

Lemma or_default_int_nonzero (v : option Z) (d : Z) :
  d <> 0%Z -> app_web.or_default_int v d <> 0%Z.
Proof.
  intros Hd. unfold app_web.or_default_int. destruct v as [z|]; [|exact Hd].
  destruct (Z.eqb_spec z 0); assumption.
Qed.

Lemma or_default_keeps (r d : R) : r <> 0 -> app_web.or_default (Some r) d = r.
Proof.
  intros Hr. unfold app_web.or_default.
  destruct (Req_dec_T r 0); [contradiction | reflexivity].
Qed.

Lemma or_default_zero (d : R) : app_web.or_default (Some 0) d = d.
Proof.
  unfold app_web.or_default.
  destruct (Req_dec_T 0 0) as [|H]; [reflexivity | now contradiction H].
Qed.

(** X13: the page replaces every field that does not parse, and every
    field that is zero, by its default, so it never requests a zero: no
    zero savings, contribution, return, inflation or goal, and in particular
    no run without volatility (a 0 typed as volatility is simulated with 15).
    Every other number is sent as typed. *)
Theorem page_never_sends_zero (f : app_web.form) :
  let p := app_web.page_params f in
  (current_savings p <> 0 /\ monthly_contribution p <> 0
   /\ years p <> 0%Z /\ annual_return p <> 0 /\ annual_volatility p <> 0
   /\ inflation_rate p <> 0 /\ goal_amount p <> 0
   /\ n_simulations p <> 0%Z)
  /\ (app_web.annualVolatility f = Some 0 -> annual_volatility p = 15)
  /\ (app_web.monthlyContribution f = Some 0 -> monthly_contribution p = 1000)
  /\ (app_web.currentSavings f = Some 0 -> current_savings p = 50000)
  /\ (forall r, r <> 0 ->
        (app_web.currentSavings f = Some r -> current_savings p = r)
        /\ (app_web.monthlyContribution f = Some r ->
            monthly_contribution p = r)
        /\ (app_web.annualReturn f = Some r -> annual_return p = r)
        /\ (app_web.annualVolatility f = Some r -> annual_volatility p = r)
        /\ (app_web.inflationRate f = Some r -> inflation_rate p = r)
        /\ (app_web.goalAmount f = Some r -> goal_amount p = r)).
Proof.
  cbv zeta. unfold app_web.page_params.
  cbn [current_savings monthly_contribution years annual_return
       annual_volatility inflation_rate goal_amount n_simulations].
  split.
  { repeat split;
      try (apply or_default_nonzero; lra);
      apply or_default_int_nonzero; lia. }
  split; [intros ->; apply or_default_zero|].
  split; [intros ->; apply or_default_zero|].
  split; [intros ->; apply or_default_zero|].
  intros r Hr. repeat split; intros ->; now apply or_default_keeps.
Qed.

(** ** The route *)

Lemma Int_part_IZR (z : Z) : Int_part (IZR z) = z.
Proof. symmetry. apply Int_part_spec. split; lra. Qed.

Lemma trunc_IZR (z : Z) : app_web.trunc (IZR z) = z.
Proof.
  unfold app_web.trunc. destruct (Rle_dec 0 (IZR z)).
  - apply Int_part_IZR.
  - rewrite <- opp_IZR, Int_part_IZR. lia.
Qed.

Lemma trunc_nonneg (r : R) :
  0 <= r ->
  IZR (app_web.trunc r) <= r < IZR (app_web.trunc r) + 1
  /\ (0 <= app_web.trunc r)%Z.
Proof.
  intros Hr. unfold app_web.trunc. destruct (Rle_dec 0 r); [|contradiction].
  destruct (base_Int_part r) as [H1 H2]. split; [lra|].
  apply le_IZR. 
  assert (-1 < IZR (Int_part r)) by lra.
  assert ((-1 < Int_part r)%Z) by (apply lt_IZR; exact H).
  apply IZR_le. lia.
Qed.

Section Route.

Variable float_of_string : string -> option R.
Variable int_of_string : string -> option Z.

Local Abbreviation parse :=
  (app_web.parse_params float_of_string int_of_string).
Local Abbreviation route := (app_web.simulate float_of_string int_of_string).

Lemma parse_missing (o : list (string * app_web.json)) :
  (forall k, In k request_keys -> app_web.lookup k o = None) ->
  parse (app_web.JObj o) = app_web.Done app.default_params.
Proof.
  intros H. unfold app_web.parse_params, app_web.get.
  rewrite !H by (unfold request_keys; simpl; tauto).
  cbn [app_web.and_then app_web.to_float app_web.to_int].
  change 30 with (IZR 30). change 5000 with (IZR 5000).
  rewrite !trunc_IZR. reflexivity.
Qed.




Lemma route_default_request (o : list (string * app_web.json))
    (g : np.RandomState) :
  (forall k, In k request_keys -> app_web.lookup k o = None) ->
  exists s m,
    app.run_simulation app.default_params g = OK (s, m)
    /\ route (app_web.JObj o) g
       = app_web.Success s (app_web.create_plot (Some m) s).
Proof.
  intros H. destruct (app_run_ok app.default_params g app_default_runnable)
    as [[s m] Hrun].
  exists s, m. split; [exact Hrun|]. unfold app_web.simulate.
  rewrite (parse_missing o H), Hrun. reflexivity.
Qed.

Lemma and_then_done {A B : Type} (c : app_web.outcome A)
    (k : A -> app_web.outcome B) (b : B) :
  app_web.and_then c k = app_web.Done b ->
  exists a, c = app_web.Done a /\ k a = app_web.Done b.
Proof.
  destruct c as [a|e]; [|discriminate]. intros H. now exists a.
Qed.

Lemma parse_years (o : list (string * app_web.json)) (r : R) (p : params) :
  app_web.lookup "years" o = Some (app_web.JNum r) ->
  parse (app_web.JObj o) = app_web.Done p -> years p = app_web.trunc r.
Proof.
  intros Hy H. unfold app_web.parse_params in H.
  apply and_then_done in H. destruct H as (cs & _ & H).
  apply and_then_done in H. destruct H as (mc & _ & H).
  apply and_then_done in H. destruct H as (y & Hyears & H).
  apply and_then_done in H. destruct H as (ar & _ & H).
  apply and_then_done in H. destruct H as (av & _ & H).
  apply and_then_done in H. destruct H as (ir & _ & H).
  apply and_then_done in H. destruct H as (ga & _ & H).
  apply and_then_done in H. destruct H as (n & _ & H).
  injection H as <-. cbn [years].
  unfold app_web.get in Hyears. rewrite Hy in Hyears.
  cbn [app_web.and_then app_web.to_int] in Hyears. congruence.
Qed.

(** X15: a field the request leaves out takes the default of the route, so
    a request without any of the eight keys, the empty object included, is
    answered with the run of the defaults (5000 simulations); and a
    fractional [years] is cut toward zero, never rounded, so that [2.9]
    simulates 2 years. *)
Theorem route_defaults_and_truncation (g : np.RandomState) :
  (forall o, (forall k, In k request_keys -> app_web.lookup k o = None) ->
     parse (app_web.JObj o) = app_web.Done app.default_params
     /\ exists s m,
          app.run_simulation app.default_params g = OK (s, m)
          /\ route (app_web.JObj o) g
             = app_web.Success s (app_web.create_plot (Some m) s))
  /\ (forall o r p,
        app_web.lookup "years" o = Some (app_web.JNum r) ->
        parse (app_web.JObj o) = app_web.Done p ->
        years p = app_web.trunc r
        /\ (0 <= r -> IZR (years p) <= r < IZR (years p) + 1))
  /\ (forall z : Z, app_web.trunc (IZR z) = z).
Proof.
  split; [|split].
  - intros o H. split; [now apply parse_missing|].
    now apply route_default_request.
  - intros o r p Hy Hp. rewrite (parse_years o r p Hy Hp).
    split; [reflexivity|]. intros Hr. apply trunc_nonneg, Hr.
  - apply trunc_IZR.
Qed.

Lemma parse_page_request (f : app_web.form) :
  parse (app_web.page_request f) = app_web.Done (app_web.page_params f).
Proof.
  unfold app_web.parse_params, app_web.page_request, app_web.get.
  cbn [app_web.lookup String.eqb Ascii.eqb Bool.eqb app_web.and_then
       app_web.to_float app_web.to_int].
  rewrite !trunc_IZR. destruct (app_web.page_params f). reflexivity.
Qed.

(** X16: what the page sends, the route runs: the request built from the
    form converts back to exactly the parameters of the page, whatever was
    typed, so the answer is the run of those parameters, with status 200
    exactly when that run completes. *)
Theorem route_runs_what_the_page_sends (f : app_web.form)
    (g : np.RandomState) :
  let p := app_web.page_params f in
  parse (app_web.page_request f) = app_web.Done p
  /\ route (app_web.page_request f) g
     = match app.run_simulation p g with
       | OK (s, m) => app_web.Success s (app_web.create_plot (Some m) s)
       | Raise e => app_web.Failure (app_web.Python e)
       end
  /\ (app_web.status (route (app_web.page_request f) g) = 200%Z <->
      completes (app.run_simulation p g)).
Proof.
  cbv zeta. split; [apply parse_page_request|].
  assert (Hroute : route (app_web.page_request f) g
            = match app.run_simulation (app_web.page_params f) g with
              | OK (s, m) => app_web.Success s (app_web.create_plot (Some m) s)
              | Raise e => app_web.Failure (app_web.Python e)
              end).
  { unfold app_web.simulate. rewrite parse_page_request.
    destruct (app.run_simulation (app_web.page_params f) g) as [[s m]|e];
      reflexivity. }
  split; [exact Hroute|]. rewrite Hroute.
  destruct (app.run_simulation (app_web.page_params f) g) as [[s m]|e] eqn:E;
    cbn [app_web.status].
  - split; [intros _; now eexists | reflexivity].
  - split; [discriminate|]. intros [a Ha]. discriminate.
Qed.

End Route.

(** ** The sensitivity analysis *)

Lemma run_simulation_state_spec (p : params) (g : np.RandomState) :
  mc_tools.run_simulation_state p g
  = match monte_carlo.run_simulation p g with
    | OK (s, m) =>
        OK (s, m,
            advance (Z.to_nat (n_simulations p)) g (Z.to_nat (months_of p)))
    | Raise e => Raise e
    end.
Proof.
  unfold mc_tools.run_simulation_state, monte_carlo.run_simulation.
  destruct (future_goal_of p) as [fg|e]; [|reflexivity]. cbn [bind].
  destruct (monte_carlo.simulate p g) as [[m g']|e] eqn:E; [|reflexivity].
  cbn [bind]. apply mc_simulate_inv in E. destruct E as (_ & _ & ->).
  destruct (monte_carlo.statistics (np.last_row m) fg (n_simulations p));
    reflexivity.
Qed.

Lemma call_generator (d : mc_tools.inputs) (g g' : np.RandomState)
    (s : monte_carlo.summary) (m : np.matrix) :
  mc_tools.call_run_simulation d g = OK (s, m, g') ->
  exists p, monte_carlo.run_simulation p g = OK (s, m)
            /\ g' = advance (Z.to_nat (n_simulations p)) g
                      (Z.to_nat (months_of p)).
Proof.
  unfold mc_tools.call_run_simulation.
  destruct (forallb _ d); [|discriminate].
  destruct (mc_tools.keyword d "years" (mc_tools.PInt 30)) as [y|y];
    destruct (mc_tools.keyword d "n_simulations" (mc_tools.PInt 10000))
      as [n|n].
  - rewrite run_simulation_state_spec.
    match goal with
    | |- context [monte_carlo.run_simulation ?q g] =>
        destruct (monte_carlo.run_simulation q g) as [[s' m']|e] eqn:E;
        [|discriminate]; intros H; injection H as <- <- <-;
        exists q; split; [exact E | reflexivity]
    end.
  - destruct (future_goal_of _); discriminate.
  - destruct (Req_dec_T _ 0);
      [destruct (Rlt_dec y 0) | destruct (py.pow_overflows _ y)];
      discriminate.
  - destruct (Req_dec_T _ 0);
      [destruct (Rlt_dec y 0) | destruct (py.pow_overflows _ y)];
      discriminate.
Qed.

Lemma loop_spec (base_inputs : mc_tools.inputs) (variable : string)
    (test_values : list mc_tools.pyval) (acc : list mc_tools.row)
    (g : np.RandomState) :
  match mc_tools.sensitivity_loop base_inputs variable test_values (acc, g)
  with
  | OK (rows, g') =>
      exists new, rows = acc ++ new
                  /\ table_of base_inputs variable test_values g new g'
  | Raise e =>
      exists done value rest g1 new,
        test_values = done ++ value :: rest
        /\ table_of base_inputs variable done g new g1
        /\ mc_tools.call_run_simulation
             (mc_tools.assign variable value base_inputs) g1 = Raise e
  end.
Proof.
  revert acc g. induction test_values as [|v vs IH]; intros acc g.
  - cbn [mc_tools.sensitivity_loop]. exists []. split;
      [now rewrite app_nil_r | constructor].
  - cbn [mc_tools.sensitivity_loop].
    destruct (mc_tools.call_run_simulation
                (mc_tools.assign variable v base_inputs) g)
      as [[[s m] g1]|e] eqn:E; cbn [bind].
    + specialize (IH (acc ++ [mc_tools.mkRow v
                                (monte_carlo.success_probability s)
                                (monte_carlo.median_final_value s)]) g1).
      destruct (mc_tools.sensitivity_loop base_inputs variable vs _)
        as [[rows g']|e].
      * destruct IH as (new & -> & Ht). eexists. split;
          [rewrite <- app_assoc; reflexivity|].
        econstructor; eassumption.
      * destruct IH as (done & value & rest & g2 & new & -> & Ht & Hf).
        exists (v :: done), value, rest, g2. eexists. split; [reflexivity|].
        split; [econstructor; eassumption | exact Hf].
    + exists [], v, vs, g, []. split; [reflexivity|].
      split; [constructor | exact E].
Qed.

Lemma table_of_facts (base_inputs : mc_tools.inputs) (variable : string)
    (vs : list mc_tools.pyval) (g g' : np.RandomState)
    (rows : list mc_tools.row) :
  table_of base_inputs variable vs g rows g' ->
  map mc_tools.tested_value rows = vs
  /\ np.variates g' = np.variates g
  /\ (np.position g <= np.position g')%nat.
Proof.
  induction 1 as [g|v rest g g1 g2 s m rows Hcall Ht IH].
  - repeat split. lia.
  - destruct IH as (Hv & Hvar & Hpos).
    apply call_generator in Hcall. destruct Hcall as (p & _ & ->).
    cbn [map mc_tools.tested_value]. rewrite Hv.
    unfold advance in *. cbn [np.variates np.position] in *.
    repeat split; [assumption | lia].
Qed.

(** X17: when [sensitivity_analysis] gets as far as its plots, its table has
    one row per test value, in the order given, each carrying its test value
    with the success probability and median of a run of the inputs with that
    one variable reassigned; the runs are chained on the generator, each
    starting where the previous one stopped, so no two rows share a draw.
    With no test value at all there is no column to plot: a [KeyError]. *)
Theorem sensitivity_table (base_inputs : mc_tools.inputs) (variable : string)
    (test_values : list mc_tools.pyval) (g : np.RandomState) :
  match mc_tools.sensitivity_analysis base_inputs variable test_values g with
  | inr (rows, g') =>
      test_values <> []
      /\ table_of base_inputs variable test_values g rows g'
      /\ map mc_tools.tested_value rows = test_values
      /\ length rows = length test_values
      /\ np.variates g' = np.variates g
  | inl mc_tools.KeyError => test_values = []
  | inl (mc_tools.FromRun e) =>
      exists done value rest g1 rows,
        test_values = done ++ value :: rest
        /\ table_of base_inputs variable done g rows g1
        /\ mc_tools.call_run_simulation
             (mc_tools.assign variable value base_inputs) g1 = Raise e
  end.
Proof.
  unfold mc_tools.sensitivity_analysis.
  pose proof (loop_spec base_inputs variable test_values [] g) as H.
  destruct (mc_tools.sensitivity_loop base_inputs variable test_values
              ([], g)) as [[rows g']|e].
  - destruct H as (new & -> & Ht). cbn [app].
    pose proof (table_of_facts _ _ _ _ _ _ Ht) as (Hv & Hvar & _).
    destruct new as [|r rs].
    + inversion Ht. reflexivity.
    + split; [intros ->; inversion Ht|]. split; [exact Ht|].
      split; [exact Hv|]. split; [|exact Hvar].
      rewrite <- Hv. now rewrite length_map.
  - exact H.
Qed.

Lemma call_rejects_unknown (d : mc_tools.inputs) (key : string)
    (v : mc_tools.pyval) (g : np.RandomState) :
  mc_tools.is_parameter key = false ->
  mc_tools.call_run_simulation (mc_tools.assign key v d) g = Raise TypeError.
Proof.
  intros H. unfold mc_tools.call_run_simulation, mc_tools.assign.
  cbn [forallb fst]. rewrite H. reflexivity.
Qed.

Lemma loop_accumulates (base_inputs : mc_tools.inputs) (variable : string)
    (test_values : list mc_tools.pyval) (acc : list mc_tools.row)
    (g : np.RandomState) :
  mc_tools.sensitivity_loop base_inputs variable test_values (acc, g)
  = match mc_tools.sensitivity_loop base_inputs variable test_values ([], g)
    with
    | OK (rows, g') => OK (acc ++ rows, g')
    | Raise e => Raise e
    end.
Proof.
  revert acc g. induction test_values as [|v vs IH]; intros acc g.
  - cbn [mc_tools.sensitivity_loop]. now rewrite app_nil_r.
  - cbn [mc_tools.sensitivity_loop].
    destruct (mc_tools.call_run_simulation
                (mc_tools.assign variable v base_inputs) g)
      as [[[s m] g1]|e]; cbn [bind app]; [|reflexivity].
    rewrite (IH (acc ++ _)), (IH [_]).
    destruct (mc_tools.sensitivity_loop base_inputs variable vs ([], g1))
      as [[rows g']|e]; [|reflexivity].
    now rewrite <- app_assoc.
Qed.

(** X18: the analysis stops at the first run that raises and plots nothing:
    the exception of that run is the outcome, whatever values follow.  A
    variable that is not a parameter of [run_simulation] is such a case: the
    first run is a [TypeError]. *)
Theorem sensitivity_stops_at_first_failure (base_inputs : mc_tools.inputs)
    (variable : string) (value : mc_tools.pyval)
    (rest : list mc_tools.pyval) (g : np.RandomState) :
  (forall e,
      mc_tools.call_run_simulation
        (mc_tools.assign variable value base_inputs) g = Raise e ->
      mc_tools.sensitivity_analysis base_inputs variable (value :: rest) g
      = inl (mc_tools.FromRun e))
  /\ (mc_tools.is_parameter variable = false ->
      mc_tools.sensitivity_analysis base_inputs variable (value :: rest) g
      = inl (mc_tools.FromRun TypeError))
  /\ (forall s m g1 e,
        mc_tools.call_run_simulation
          (mc_tools.assign variable value base_inputs) g = OK (s, m, g1) ->
        mc_tools.sensitivity_analysis base_inputs variable rest g1
        = inl (mc_tools.FromRun e) ->
        mc_tools.sensitivity_analysis base_inputs variable (value :: rest) g
        = inl (mc_tools.FromRun e)).
Proof.
  assert (Hfirst : forall e,
      mc_tools.call_run_simulation
        (mc_tools.assign variable value base_inputs) g = Raise e ->
      mc_tools.sensitivity_analysis base_inputs variable (value :: rest) g
      = inl (mc_tools.FromRun e)).
  { intros e H. unfold mc_tools.sensitivity_analysis.
    cbn [mc_tools.sensitivity_loop]. rewrite H. reflexivity. }
  split; [exact Hfirst|]. split.
  - intros H. apply Hfirst. now apply call_rejects_unknown.
  - intros s m g1 e Hcall Hrest.
    unfold mc_tools.sensitivity_analysis in *.
    cbn [mc_tools.sensitivity_loop]. rewrite Hcall. cbn [bind app].
    rewrite loop_accumulates.
    destruct (mc_tools.sensitivity_loop base_inputs variable rest ([], g1))
      as [[rows0 g0]|e0].
    + destruct rows0; discriminate.
    + exact Hrest.
Qed.

Example sensitivity_two_returns :
  exists rows g',
    mc_tools.sensitivity_analysis small_inputs "annual_return"
      [mc_tools.PFloat 5; mc_tools.PFloat 7] zero_generator
    = inr (rows, g')
    /\ map mc_tools.tested_value rows = [mc_tools.PFloat 5; mc_tools.PFloat 7]
    /\ np.position g' = 48%nat.
Proof.
  assert (Hcall : forall r g, -100 <= r ->
            exists s m,
              mc_tools.call_run_simulation
                (mc_tools.assign "annual_return" (mc_tools.PFloat r)
                   small_inputs) g
              = OK (s, m, advance 2 g 12)).
  { intros r g Hr.
    unfold mc_tools.call_run_simulation, mc_tools.assign, small_inputs.
    cbn [forallb fst mc_tools.is_parameter mc_tools.parameter_names existsb
         String.eqb Ascii.eqb Bool.eqb orb andb mc_tools.keyword
         mc_tools.lookup mc_tools.as_float].
    rewrite run_simulation_state_spec.
    set (p := mkParams _ _ _ _ _ _ _ _).
    assert (Hrun : runnable p) by (unfold p; small_run).
    destruct (mc_run_ok p g Hrun) as [[s m] ->]. exists s, m. reflexivity. }
  destruct (Hcall 5 zero_generator ltac:(lra)) as (s1 & m1 & H1).
  destruct (Hcall 7 (advance 2 zero_generator 12) ltac:(lra))
    as (s2 & m2 & H2).
  unfold mc_tools.sensitivity_analysis. cbn [mc_tools.sensitivity_loop].
  rewrite H1. cbn [bind app]. rewrite H2. cbn [bind app].
  do 2 eexists. split; [reflexivity|]. split; reflexivity.
Qed.
